(** * scripts/evaluate_navier_stokes.py: the evaluation script, embedded

    The script is orchestration code: it parses its command line, builds a
    configuration, a dataset, a model and a trainer through library calls,
    restores a checkpoint and runs the library's evaluation.  The embedding
    keeps that shape.  Every call into a library is an event of a trace and
    takes its result (a value or a raised exception) from a [World]; the
    script itself is a program in a small trace-and-exception monad.  What
    the script computes on its own ([flatten_to_args], the rebuilt
    [sys.argv], the loop over the test loaders, the argument records it
    hands to the library) is written out as executable definitions. *)

From Stdlib Require Import List String Ascii ZArith Bool Arith Lia DecimalString.
Import ListNotations.
Open Scope string_scope.
Open Scope list_scope.

Set Implicit Arguments.
Set Warnings "-register-all".

(** ** Python values the script handles *)

(** What can be raised.  [except Exception] matches the first constructor
    only: [KeyboardInterrupt] and [SystemExit] derive from [BaseException]
    directly. *)
Inductive pyexc : Type :=
| Exception (cls msg : string)
| KeyboardInterrupt
| SystemExit (code : Z).

Definition is_Exception (e : pyexc) : bool :=
  match e with Exception _ _ => true | _ => false end.

(** [str(e)], as it appears in [f"... {e}"], for an exception built from one message. *)
Definition exc_str (e : pyexc) : string :=
  match e with
  | Exception _ msg => msg
  | KeyboardInterrupt => ""
  | SystemExit _ => ""
  end.

(** Configuration values the script only passes on. *)
Inductive pyval : Type :=
| PyNone
| PyBool (b : bool)
| PyInt (z : Z)
| PyFloat (literal : string)
| PyStr (s : string)
| PyList (l : list pyval).

(** [pathlib] paths, kept as the expressions that build them. *)
Inductive PyPath : Type :=
| Path (s : string)
| Expanduser (p : PyPath).

Definition newline : string := String "010"%char "".

(** Truth value of a string and of an optional string ([None] and [''] are false). *)
Definition truthy (s : string) : bool :=
  match s with EmptyString => false | String _ _ => true end.

Definition truthy_opt (o : option string) : bool :=
  match o with None => false | Some s => truthy s end.

(** ** Results and the trace monad *)

Inductive outcome (A : Type) : Type :=
| Ok (a : A)
| Raise (e : pyexc).
Arguments Ok {A} a.
Arguments Raise {A} e.

(** ** TOML documents and [flatten_to_args] (lines 42-52) *)

Section Toml.
(** [leaf] stands for what [tomllib] yields that is not a [dict]
    (strings, integers, floats, booleans, dates, arrays); [str] is Python's
    [str] on those. *)
Variable leaf : Type.
Variable str : leaf -> string.

Inductive toml : Type :=
| TLeaf (v : leaf)
| TDict (items : list (string * toml)).

(** [key = f"{prefix}.{k}" if prefix else k] *)
Definition join_key (prefix k : string) : string :=
  if truthy prefix then (prefix ++ "." ++ k)%string else k.

(** The body of [flatten_to_args]: the [for] loop over [d.items()] is the
    inner recursion, the recursive call on a nested [dict] the outer one. *)
Fixpoint flatten_value (v : toml) (key : string) {struct v} : list string :=
  match v with
  | TLeaf x => [("--" ++ key)%string; str x]
  | TDict d =>
      (fix items (d : list (string * toml)) : list string :=
         match d with
         | [] => []
         | (k, v') :: d' => flatten_value v' (join_key key k) ++ items d'
         end) d
  end.

Definition flatten_to_args (d : list (string * toml)) (prefix : string) : list string :=
  flatten_value (TDict d) prefix.

(** The claim's reading of the same: the leaves of the document, each with
    the keys that lead to it, in iteration order ... *)
Fixpoint leaves_value (v : toml) (path : list string) {struct v}
  : list (list string * leaf) :=
  match v with
  | TLeaf x => [(path, x)]
  | TDict d =>
      (fix items (d : list (string * toml)) : list (list string * leaf) :=
         match d with
         | [] => []
         | (k, v') :: d' => leaves_value v' (path ++ [k]) ++ items d'
         end) d
  end.

Definition leaves (d : list (string * toml)) : list (list string * leaf) :=
  leaves_value (TDict d) [].

(** ... and for each the pair ["--k1.k2...kn"], [str(v)]. *)
Definition dotted (path : list string) : string := String.concat "." path.




End Toml.

Arguments TLeaf {leaf} v.
Arguments TDict {leaf} items.

(** ** The command-line parser of lines 32-35

    [parser = argparse.ArgumentParser()] with the two [add_argument] calls
    of the script, and [parser.parse_known_args()].  The parser itself is the
    standard library's; below is its algorithm (CPython 3.11, the first
    version with [tomllib]) for a parser of this shape: the automatic
    [-h]/[--help], two string-valued options of one argument each, no
    positional arguments, abbreviations allowed.  Messages that [argparse]
    writes are left out; its exits are [SystemExit]. *)

Module Argparse.

(** The value of [args]: one attribute per [add_argument], starting at its
    [default]. *)
Record Namespace : Type := {
  config : option string;      (* add_argument("--config", type=str, default=None) *)
  checkpoint : string          (* add_argument("--checkpoint", type=str, default="./ckpt", ...) *)
}.

Definition defaults : Namespace :=
  {| config := None; checkpoint := "./ckpt" |}.

Inductive action : Type := Help | StoreConfig | StoreCheckpoint.

Definition option_string_actions : list (string * action) :=
  [("-h", Help); ("--help", Help);
   ("--config", StoreConfig); ("--checkpoint", StoreCheckpoint)].

Definition lookup_option (s : string) : option action :=
  match find (fun oa => String.eqb (fst oa) s) option_string_actions with
  | Some (_, a) => Some a
  | None => None
  end.

(** [s.split('=', 1)] when ['=' in s]. *)
Definition split_eq (s : string) : option (string * string) :=
  match String.index 0 "=" s with
  | Some i => Some (substring 0 i s, substring (S i) (String.length s - S i) s)
  | None => None
  end.

Definition is_digit (c : ascii) : bool :=
  let n := nat_of_ascii c in (48 <=? n)%nat && (n <=? 57)%nat.

Fixpoint all_digits (s : string) : bool :=
  match s with
  | EmptyString => true
  | String c s' => is_digit c && all_digits s'
  end.

(** Digits, a dot, then at least one digit. *)
Fixpoint digits_dot_digits (s : string) : bool :=
  match s with
  | EmptyString => false
  | String c s' =>
      if Ascii.eqb c "."%char then truthy s' && all_digits s'
      else is_digit c && digits_dot_digits s'
  end.

(** [_negative_number_matcher]: ['^-\d+$|^-\d*\.\d+$']. *)
Definition negative_number (s : string) : bool :=
  match s with
  | String "-"%char s' => (truthy s' && all_digits s') || digits_dot_digits s'
  | _ => false
  end.

Definition contains_space (s : string) : bool :=
  match String.index 0 " " s with Some _ => true | None => false end.

(** How one argument string reads: a positional, or an option string with
    its action (if any) and the argument attached to it (if any). *)
Inductive parsed : Type :=
| Positional
| Optional (a : option action) (option_string : string) (explicit_arg : option string)
| Ambiguous.

(** [_get_option_tuples]. *)
Definition get_option_tuples (arg : string)
  : list (action * string * option string) :=
  match arg with
  | String "-"%char (String "-"%char _) =>
      let '(option_prefix, explicit_arg) :=
        match split_eq arg with
        | Some (p, e) => (p, Some e)
        | None => (arg, None)
        end in
      flat_map (fun oa =>
                  if String.prefix option_prefix (fst oa)
                  then [(snd oa, fst oa, explicit_arg)] else [])
               option_string_actions
  | String "-"%char (String c rest) =>
      let short_option_prefix := String "-"%char (String c "") in
      flat_map (fun oa =>
                  if String.eqb (fst oa) short_option_prefix
                  then [(snd oa, fst oa, Some rest)]
                  else if String.prefix arg (fst oa)
                       then [(snd oa, fst oa, None)] else [])
               option_string_actions
  | _ => []
  end.

(** [_parse_optional]. *)
Definition parse_optional (arg : string) : parsed :=
  match arg with
  | EmptyString => Positional
  | String c _ =>
      if negb (Ascii.eqb c "-"%char) then Positional else
      match lookup_option arg with
      | Some a => Optional (Some a) arg None
      | None =>
          if (String.length arg =? 1)%nat then Positional else
          let by_eq :=
            match split_eq arg with
            | Some (o, e) =>
                match lookup_option o with
                | Some a => Some (Optional (Some a) o (Some e))
                | None => None
                end
            | None => None
            end in
          match by_eq with
          | Some p => p
          | None =>
              match get_option_tuples arg with
              | _ :: _ :: _ => Ambiguous
              | [(a, o, e)] => Optional (Some a) o e
              | [] =>
                  if negative_number arg then Positional
                  else if contains_space arg then Positional
                  else Optional None arg None
              end
          end
      end
  end.

(** The pattern of the command line: ['A'], ['O'] or, for the first ["--"], ['-']. *)
Inductive pattern : Type :=
| PA
| PDash
| PO (a : option action) (option_string : string) (explicit_arg : option string).

Fixpoint classify (args : list string) : outcome (list (string * pattern)) :=
  match args with
  | [] => Ok []
  | a :: rest =>
      if String.eqb a "--" then Ok ((a, PDash) :: map (fun s => (s, PA)) rest)
      else
        match parse_optional a with
        | Ambiguous => Raise (SystemExit 2)
        | Positional =>
            match classify rest with
            | Ok ps => Ok ((a, PA) :: ps)
            | Raise e => Raise e
            end
        | Optional act o e =>
            match classify rest with
            | Ok ps => Ok ((a, PO act o e) :: ps)
            | Raise e => Raise e
            end
        end
  end.

Definition take_action (a : action) (v : string) (ns : Namespace) : Namespace :=
  match a with
  | StoreConfig => {| config := Some v; checkpoint := checkpoint ns |}
  | StoreCheckpoint => {| config := config ns; checkpoint := v |}
  | Help => ns
  end.

Fixpoint all_h (s : string) : bool :=
  match s with
  | EmptyString => true
  | String c s' => Ascii.eqb c "h"%char && all_h s'
  end.

(** What [-h] does: help and exit 0, or an error for an argument it cannot take. *)
Definition help_exit (option_string : string) (explicit_arg : option string) : Z :=
  match explicit_arg with
  | None => 0
  | Some e =>
      if String.eqb option_string "-h" && truthy e && all_h e then 0 else 2
  end%Z.

(** Where the scan of the patterns stands: between options, or after an
    option string that still needs its one argument (pattern ['A']: for an
    option, ["--"] is not accepted in its place). *)
Inductive mode : Type :=
| Scanning
| ExpectValue (a : action).

Fixpoint consume (m : mode) (ps : list (string * pattern)) (ns : Namespace)
         (extras : list string) : outcome (Namespace * list string) :=
  match ps with
  | [] =>
      match m with
      | ExpectValue _ => Raise (SystemExit 2)
      | Scanning => Ok (ns, rev extras)
      end
  | (s, p) :: rest =>
      match m, p with
      | ExpectValue a, PA => consume Scanning rest (take_action a s ns) extras
      | ExpectValue _, _ => Raise (SystemExit 2)
      | Scanning, PDash => consume Scanning rest ns (s :: extras)
      | Scanning, PA => consume Scanning rest ns (s :: extras)
      | Scanning, PO None _ _ => consume Scanning rest ns (s :: extras)
      | Scanning, PO (Some Help) o e => Raise (SystemExit (help_exit o e))
      | Scanning, PO (Some a) _ (Some v) => consume Scanning rest (take_action a v ns) extras
      | Scanning, PO (Some a) _ None => consume (ExpectValue a) rest ns extras
      end
  end.

(** [parser.parse_known_args()] on [sys.argv[1:]]. *)
Definition parse_known_args (args : list string)
  : outcome (Namespace * list string) :=
  match classify args with
  | Ok ps => consume Scanning ps defaults []
  | Raise e => Raise e
  end.

(** An argument string that the parser reads as the [--checkpoint] option. *)
Definition selects_checkpoint (arg : string) : bool :=
  match parse_optional arg with
  | Optional (Some StoreCheckpoint) _ _ => true
  | _ => false
  end.

End Argparse.

(** ** The configuration object

    [make_config_from_cli(Default).to_dict()]: the fields the script reads.
    The class [Default] lives in [config/navier_stokes_config.py]; only the
    types the script relies on are fixed here ([verbose] and
    [use_distributed] are truth values, [levels] is an integer,
    [test_batch_sizes] a list), everything else is passed on as it is. *)

Record DataConfig : Type := {
  folder : string;
  train_resolution : pyval;
  n_train : pyval;
  batch_size : pyval;
  test_resolutions : pyval;
  n_tests : pyval;
  test_batch_sizes : list pyval;
  encode_input : pyval;
  encode_output : pyval
}.

Record PatchingConfig : Type := {
  levels : Z;
  padding : pyval;
  stitching : pyval
}.

Record DistributedConfig : Type := { use_distributed : bool }.

Record OptConfig : Type := {
  learning_rate : pyval;
  n_epochs : pyval;
  mixed_precision : pyval;
  eval_interval : pyval
}.

Record WandbConfig : Type := { log_output : pyval }.

Record Config : Type := {
  verbose : bool;
  data : DataConfig;
  patching : PatchingConfig;
  distributed : DistributedConfig;
  opt : OptConfig;
  wandb : WandbConfig;
  other_sections : list (string * pyval)
}.

(** [config.verbose = b] *)
Definition set_verbose (c : Config) (b : bool) : Config :=
  {| verbose := b; data := data c; patching := patching c;
     distributed := distributed c; opt := opt c; wandb := wandb c;
     other_sections := other_sections c |}.

(** ** Dictionaries in insertion order *)

(** [d[k] = v]: an existing key keeps its place. *)
Fixpoint dict_set {V : Type} (d : list (Z * V)) (k : Z) (v : V) : list (Z * V) :=
  match d with
  | [] => [(k, v)]
  | (k', v') :: d' =>
      if Z.eqb k' k then (k', v) :: d' else (k', v') :: dict_set d' k v
  end.

(** ** The libraries *)

(** The kinds of object that the libraries create and the script passes around. *)
Record Lib : Type := {
  Leaf : Type;          (* TOML values that are not tables *)
  RawConfig : Type;     (* result of make_config_from_cli *)
  Device : Type;
  Dataset : Type;
  Loader : Type;
  Sampler : Type;
  Rank : Type;
  Model : Type;
  Params : Type;
  Processor : Type;
  Normalizer : Type;
  Optimizer : Type;
  Scheduler : Type;
  Loss : Type;
  TrainerObj : Type;
  Metric : Type
}.

Section Calls.
Variable L : Lib.

(** Keyword arguments of the library calls, as the script writes them. *)

Record LoadArgs : Type := {
  la_data_root : PyPath;
  la_train_resolution : pyval;
  la_n_train : pyval;
  la_batch_size : pyval;
  la_test_resolutions : pyval;
  la_n_tests : pyval;
  la_test_batch_sizes : list pyval;
  la_encode_input : pyval;
  la_encode_output : pyval
}.

Record MGPatchingArgs : Type := {
  mg_model : Model L;
  mg_in_normalizer : Normalizer L;
  mg_out_normalizer : Normalizer L;
  mg_padding_fraction : pyval;
  mg_stitching : pyval;
  mg_levels : Z;
  mg_use_distributed : bool
}.

(** [shuffle] is [None] where the call does not pass it. *)
Record DataLoaderArgs : Type := {
  dl_dataset : Dataset L;
  dl_batch_size : pyval;
  dl_shuffle : option bool;
  dl_sampler : Sampler L
}.

Record TrainerArgs : Type := {
  tr_model : Model L;
  tr_n_epochs : pyval;
  tr_data_processor : Processor L;
  tr_device : Device L;
  tr_mixed_precision : pyval;
  tr_eval_interval : pyval;
  tr_log_output : pyval;
  tr_use_distributed : bool;
  tr_verbose : bool;
  tr_wandb_log : bool
}.

Record EvaluateArgs : Type := {
  ev_epoch : Z;
  ev_eval_losses : list (string * Loss L);
  ev_test_loaders : list (Z * Loader L);
  ev_eval_modes : list (string * string)
}.

(** A call that leaves the script. *)
Inductive call : Type :=
| CSysPathInsert
| CImport (module : string)
| CParseKnownArgs (args : list string)
| CLoadToml (path : string)
| CMakeConfigFromCli (argv : list string)
| CToDict (raw : RawConfig L)
| CSetup (c : Config)
| CLoadNavierStokesPt (a : LoadArgs)
| CGetModel (c : Config)
| CModelTo (m : Model L) (d : Device L)
| CMGPatchingDataProcessor (a : MGPatchingArgs)
| CProcessorTo (p : Processor L) (d : Device L)
| CGetLocalRank
| CDistributedSampler (db : Dataset L) (rank : Rank L)
| CDataLoader (a : DataLoaderArgs)
| CAdamW (params : Params L) (lr : pyval)
| CStepLR (o : Optimizer L) (step_size : Z) (gamma : pyval)
| CLpLoss (d p : Z)
| CH1Loss (d : Z)
| CTrainer (a : TrainerArgs)
| CResumeStateFromDir (t : TrainerObj L) (dir : PyPath)
| CEvaluateAll (t : TrainerObj L) (a : EvaluateArgs)
| CIsInitialized
| CDestroyProcessGroup
| CSysExit (code : Z).

(** What a run does, in order: what it prints and what it calls, with the
    exception where a call raised. *)
Inductive event : Type :=
| Print (s : string)
| PrintConfig (c : Config)
| Called (c : call) (raised : option pyexc).

(** What the libraries answer.  Attribute reads and [str] are functions;
    calls return a value or raise. *)
Record World : Type := {
  py_str : Leaf L -> string;
  str_path : PyPath -> string;
  str_metric : Metric L -> string;
  loader_dataset : Loader L -> Dataset L;
  in_normalizer : Processor L -> Normalizer L;
  out_normalizer : Processor L -> Normalizer L;
  parameters : Model L -> Params L;
  sys_path_insert : outcome unit;
  import_module : string -> outcome unit;
  load_toml : string -> outcome (list (string * toml (Leaf L)));
  make_config_from_cli : list string -> outcome (RawConfig L);
  to_dict : RawConfig L -> outcome Config;
  setup : Config -> outcome (Device L * bool);
  load_navier_stokes_pt :
    LoadArgs -> outcome (Loader L * list (Z * Loader L) * Processor L);
  get_model : Config -> outcome (Model L);
  model_to : Model L -> Device L -> outcome (Model L);
  MGPatchingDataProcessor : MGPatchingArgs -> outcome (Processor L);
  processor_to : Processor L -> Device L -> outcome (Processor L);
  get_local_rank : outcome (Rank L);
  DistributedSampler : Dataset L -> Rank L -> outcome (Sampler L);
  DataLoader : DataLoaderArgs -> outcome (Loader L);
  AdamW : Params L -> pyval -> outcome (Optimizer L);
  StepLR : Optimizer L -> Z -> pyval -> outcome (Scheduler L);
  LpLoss : Z -> Z -> outcome (Loss L);
  H1Loss : Z -> outcome (Loss L);
  Trainer : TrainerArgs -> outcome (TrainerObj L);
  resume_state_from_dir : TrainerObj L -> PyPath -> outcome unit;
  evaluate_all : TrainerObj L -> EvaluateArgs -> outcome (list (string * Metric L));
  is_initialized : outcome bool;
  destroy_process_group : outcome unit
}.

(** *** The monad: a trace and a result *)

Definition M (A : Type) : Type := (list event * outcome A)%type.

Definition ret {A} (a : A) : M A := ([], Ok a).

Definition bind {A B} (m : M A) (k : A -> M B) : M B :=
  match m with
  | (t, Ok a) => let (t', r) := k a in (t ++ t', r)
  | (t, Raise e) => (t, Raise e)
  end.

Definition print (s : string) : M unit := ([Print s], Ok tt).

Definition print_config (c : Config) : M unit := ([PrintConfig c], Ok tt).

(** A library call with its answer. *)
Definition ext {A} (c : call) (r : outcome A) : M A :=
  match r with
  | Ok a => ([Called c None], Ok a)
  | Raise e => ([Called c (Some e)], Raise e)
  end.

(** [sys.exit(code)] *)
Definition sys_exit {A} (code : Z) : M A :=
  ext (CSysExit code) (Raise (SystemExit code)).

(** [try: body  except Exception as e: handler(e)] *)
Definition try_except {A} (body : M A) (handler : pyexc -> M A) : M A :=
  match body with
  | (t, Raise e) =>
      if is_Exception e
      then let (t', r) := handler e in (t ++ t', r)
      else (t, Raise e)
  | (t, Ok a) => (t, Ok a)
  end.

End Calls.

Arguments ret {L A} a.
Arguments print {L} s.
Arguments print_config {L} c.
Arguments Print {L} s.
Arguments PrintConfig {L} c.
Arguments CSysPathInsert {L}.
Arguments CImport {L} module.
Arguments CParseKnownArgs {L} args.
Arguments CLoadToml {L} path.
Arguments CMakeConfigFromCli {L} argv.
Arguments CSetup {L} c.
Arguments CGetModel {L} c.
Arguments CGetLocalRank {L}.
Arguments CLpLoss {L} d p.
Arguments CH1Loss {L} d.
Arguments CIsInitialized {L}.
Arguments CDestroyProcessGroup {L}.
Arguments CSysExit {L} code.
Arguments CToDict {L} raw.
Arguments CLoadNavierStokesPt {L} a.
Arguments CModelTo {L} m d.
Arguments CMGPatchingDataProcessor {L} a.
Arguments CProcessorTo {L} p d.
Arguments CDistributedSampler {L} db rank.
Arguments CDataLoader {L} a.
Arguments CAdamW {L} params lr.
Arguments CStepLR {L} o step_size gamma.
Arguments CTrainer {L} a.
Arguments CResumeStateFromDir {L} t dir.
Arguments CEvaluateAll {L} t a.
Arguments Called {L} c raised.
Arguments ext {L A} c r.
Arguments bind {L A B} m k.
Arguments try_except {L A} body handler.
Arguments sys_exit {L A} code.

Declare Scope script_scope.
Delimit Scope script_scope with script.
Notation "x <- m ;; k" := (bind m (fun x => k))
  (at level 100, m at next level, right associativity) : script_scope.
Notation "' p <- m ;; k" := (bind m (fun x => match x with p => k end))
  (at level 100, p pattern, m at next level, right associativity) : script_scope.
Notation "m ;; k" := (bind m (fun _ => k))
  (at level 100, right associativity) : script_scope.

(** ** The script *)

(** [f"##### CONFIG #####\n"] and ["\n### Evaluation Results ###"]. *)
Definition config_header : string := ("##### CONFIG #####" ++ newline)%string.
Definition results_header : string := (newline ++ "### Evaluation Results ###")%string.

Section Script.
Variable L : Lib.
Variable W : World L.

Local Open Scope script_scope.

(** [for x in xs: body(x)] *)
Fixpoint for_each {A} (xs : list A) (body : A -> M L unit) : M L unit :=
  match xs with
  | [] => ret tt
  | x :: xs' => body x ;; for_each xs' body
  end.

(** Lines 38-56, "Manual config parsing": the value of [sys.argv]
    afterwards.  [prog] is [sys.argv[0]], [argv] the whole of [sys.argv]. *)
Definition manual_config_parsing (prog : string) (argv : list string)
           (args : Argparse.Namespace) (unknown : list string)
  : M L (list string) :=
  match Argparse.config args with
  | Some path =>
      if truthy path then
        config_dict <- ext (CLoadToml path) (load_toml W path) ;;
        let file_args := flatten_to_args (py_str W) config_dict "" in
        ret ([prog] ++ file_args ++ unknown)
      else ret argv
  | None => ret argv
  end.

(** Lines 96-107, "Dataprocessor setup". *)
Definition dataprocessor_setup (config : Config) (model : Model L)
           (device : Device L) (data_processor : Processor L)
  : M L (Processor L) :=
  data_processor <-
    (if (levels (patching config) >? 0)%Z then
       ext (CMGPatchingDataProcessor
              {| mg_model := model;
                 mg_in_normalizer := in_normalizer W data_processor;
                 mg_out_normalizer := out_normalizer W data_processor;
                 mg_padding_fraction := padding (patching config);
                 mg_stitching := stitching (patching config);
                 mg_levels := levels (patching config);
                 mg_use_distributed := use_distributed (distributed config) |})
           (MGPatchingDataProcessor W
              {| mg_model := model;
                 mg_in_normalizer := in_normalizer W data_processor;
                 mg_out_normalizer := out_normalizer W data_processor;
                 mg_padding_fraction := padding (patching config);
                 mg_stitching := stitching (patching config);
                 mg_levels := levels (patching config);
                 mg_use_distributed := use_distributed (distributed config) |})
     else ret data_processor) ;;
  ext (CProcessorTo data_processor device) (processor_to W data_processor device).

(** [DataLoader(dataset=db, batch_size=b, [shuffle=s,] sampler=DistributedSampler(db, rank=get_local_rank()))]:
    the rank is read, then the sampler built, then the loader. *)
Definition distributed_loader (db : Dataset L) (b : pyval) (shuffle : option bool)
  : M L (Loader L) :=
  rank <- ext CGetLocalRank (get_local_rank W) ;;
  sampler <- ext (CDistributedSampler db rank) (DistributedSampler W db rank) ;;
  ext (CDataLoader {| dl_dataset := db; dl_batch_size := b;
                      dl_shuffle := shuffle; dl_sampler := sampler |})
      (DataLoader W {| dl_dataset := db; dl_batch_size := b;
                       dl_shuffle := shuffle; dl_sampler := sampler |}).

(** Lines 116-123: [zip] pairs the [i]-th item of the dictionary, as it
    is when the loop gets there, with the [i]-th batch size and stops at
    the shorter of the two; the body stores the new loader under the
    item's key in the same dictionary. *)
Fixpoint rewrap_test_loaders (i : nat) (batch_sizes : list pyval)
         (test_loaders : list (Z * Loader L)) {struct batch_sizes}
  : M L (list (Z * Loader L)) :=
  match nth_error test_loaders i, batch_sizes with
  | Some (res, loader), b :: batch_sizes' =>
      let test_db := loader_dataset W loader in
      new_loader <- distributed_loader test_db b (Some false) ;;
      rewrap_test_loaders (S i) batch_sizes' (dict_set test_loaders res new_loader)
  | _, _ => ret test_loaders
  end.

(** Lines 110-123, "Distributed data parallel setup". *)
Definition distributed_data_parallel_setup (config : Config)
           (train_loader : Loader L) (test_loaders : list (Z * Loader L))
  : M L (Loader L * list (Z * Loader L)) :=
  if use_distributed (distributed config) then
    let train_db := loader_dataset W train_loader in
    train_loader <- distributed_loader train_db (batch_size (data config)) None ;;
    test_loaders <- rewrap_test_loaders 0 (test_batch_sizes (data config)) test_loaders ;;
    ret (train_loader, test_loaders)
  else ret (train_loader, test_loaders).

Definition hint_message : string :=
  "Ensure you pointed to a directory containing 'best_model_state_dict.pt' or 'model_state_dict.pt'".

(** Lines 148-156, "Load Checkpoint". *)
Definition load_checkpoint (trainer : TrainerObj L) (args : Argparse.Namespace)
  : M L unit :=
  let checkpoint_dir := Path (Argparse.checkpoint args) in
  print ("Loading checkpoint from " ++ str_path W checkpoint_dir ++ "...")%string ;;
  try_except
    (ext (CResumeStateFromDir trainer checkpoint_dir)
         (resume_state_from_dir W trainer checkpoint_dir) ;;
     print "Checkpoint loaded successfully.")
    (fun e =>
       print ("Error loading checkpoint: " ++ exc_str e)%string ;;
       print hint_message ;;
       sys_exit 1).

Definition evaluate_args (eval_losses : list (string * Loss L))
           (test_loaders : list (Z * Loader L)) : EvaluateArgs L :=
  {| ev_epoch := 0; ev_eval_losses := eval_losses;
     ev_test_loaders := test_loaders; ev_eval_modes := [] |}.

Definition metric_line (kv : string * Metric L) : string :=
  (fst kv ++ ": " ++ str_metric W (snd kv))%string.

(** Lines 159-169, "Evaluate". *)
Definition evaluate (trainer : TrainerObj L) (eval_losses : list (string * Loss L))
           (test_loaders : list (Z * Loader L)) : M L unit :=
  print "Starting evaluation..." ;;
  metrics <- ext (CEvaluateAll trainer (evaluate_args eval_losses test_loaders))
                 (evaluate_all W trainer (evaluate_args eval_losses test_loaders)) ;;
  print results_header ;;
  for_each metrics (fun kv => print (metric_line kv)).

(** Lines 172-173, "Clean up distributed training". *)
Definition cleanup : M L unit :=
  initialized <- ext CIsInitialized (is_initialized W) ;;
  if (initialized : bool)
  then ext CDestroyProcessGroup (destroy_process_group W)
  else ret tt.

Definition trainer_args (config : Config) (model : Model L)
           (data_processor : Processor L) (device : Device L) : TrainerArgs L :=
  {| tr_model := model;
     tr_n_epochs := n_epochs (opt config);
     tr_data_processor := data_processor;
     tr_device := device;
     tr_mixed_precision := mixed_precision (opt config);
     tr_eval_interval := eval_interval (opt config);
     tr_log_output := log_output (wandb config);
     tr_use_distributed := use_distributed (distributed config);
     tr_verbose := verbose config;
     tr_wandb_log := false |}.

Definition load_args (config : Config) (data_dir : PyPath) : LoadArgs :=
  {| la_data_root := data_dir;
     la_train_resolution := train_resolution (data config);
     la_n_train := n_train (data config);
     la_batch_size := batch_size (data config);
     la_test_resolutions := test_resolutions (data config);
     la_n_tests := n_tests (data config);
     la_test_batch_sizes := test_batch_sizes (data config);
     la_encode_input := encode_input (data config);
     la_encode_output := encode_output (data config) |}.

(** What lines 24-145 leave for the rest of [main]. *)
Record Prepared : Type := {
  p_args : Argparse.Namespace;
  p_test_loaders : list (Z * Loader L);
  p_eval_losses : list (string * Loss L);
  p_trainer : TrainerObj L
}.

(** Lines 24-145 of [main]: from the command line to the [Trainer]. *)
Definition prepare (prog : string) (cli : list string) : M L Prepared :=
  ext CSysPathInsert (sys_path_insert W) ;;
  ext (CImport "argparse") (import_module W "argparse") ;;
  ext (CImport "tomllib") (import_module W "tomllib") ;;
  '(args, unknown) <- ext (CParseKnownArgs cli) (Argparse.parse_known_args cli) ;;
  argv <- manual_config_parsing prog (prog :: cli) args unknown ;;
  ext (CImport "zencfg") (import_module W "zencfg") ;;
  ext (CImport "config.navier_stokes_config")
      (import_module W "config.navier_stokes_config") ;;
  raw <- ext (CMakeConfigFromCli argv) (make_config_from_cli W argv) ;;
  config <- ext (CToDict raw) (to_dict W raw) ;;
  '(device, is_logger) <- ext (CSetup config) (setup W config) ;;
  let config := set_verbose config (verbose config && is_logger) in
  (if verbose config
   then print config_header ;; print_config config
   else ret tt) ;;
  let data_dir := Expanduser (Path (folder (data config))) in
  print "Loading data..." ;;
  '(train_loader, test_loaders, data_processor) <-
    ext (CLoadNavierStokesPt (load_args config data_dir))
        (load_navier_stokes_pt W (load_args config data_dir)) ;;
  model <- ext (CGetModel config) (get_model W config) ;;
  model <- ext (CModelTo model device) (model_to W model device) ;;
  data_processor <- dataprocessor_setup config model device data_processor ;;
  '(train_loader, test_loaders) <-
    distributed_data_parallel_setup config train_loader test_loaders ;;
  optimizer <- ext (CAdamW (parameters W model) (learning_rate (opt config)))
                   (AdamW W (parameters W model) (learning_rate (opt config))) ;;
  scheduler <- ext (CStepLR optimizer 100 (PyFloat "0.5"))
                   (StepLR W optimizer 100 (PyFloat "0.5")) ;;
  l2loss <- ext (CLpLoss 2 2) (LpLoss W 2 2) ;;
  h1loss <- ext (CH1Loss 2) (H1Loss W 2) ;;
  let eval_losses := [("h1", h1loss); ("l2", l2loss)] in
  trainer <- ext (CTrainer (trainer_args config model data_processor device))
                 (Trainer W (trainer_args config model data_processor device)) ;;
  ret {| p_args := args; p_test_loaders := test_loaders;
         p_eval_losses := eval_losses; p_trainer := trainer |}.

(** [main()], lines 23-173. *)
Definition main (prog : string) (cli : list string) : M L unit :=
  st <- prepare prog cli ;;
  load_checkpoint (p_trainer st) (p_args st) ;;
  evaluate (p_trainer st) (p_eval_losses st) (p_test_loaders st) ;;
  cleanup.

Definition trace {A} (m : M L A) : list (event L) := fst m.
Definition result {A} (m : M L A) : outcome A := snd m.

End Script.

Arguments evaluate_args {L} eval_losses test_loaders.
Arguments trainer_args {L} config model data_processor device.


(** ** A concrete library, for running the script

    Every object is the expression that built it, so that a run shows what
    the script passed where.  A [Scenario] fixes what the outside answers:
    the TOML file, the configuration, the loaders, whether the checkpoint
    loads, whether a process group is up. *)

Module Demo.

Inductive scalar : Type :=
| SInt (z : Z)
| SBool (b : bool)
| SStr (s : string).

(** [str] on integers, booleans and strings. *)
Definition scalar_str (v : scalar) : string :=
  match v with
  | SInt z => NilZero.string_of_int (Z.to_int z)
  | SBool true => "True"
  | SBool false => "False"
  | SStr s => s
  end.

Inductive sampler : Type :=
| ASampler (db : string) (rank : Z).

Inductive loader : Type :=
| LibraryLoader (db : string)
| ALoader (db : string) (batch : pyval) (shuffle : option bool) (s : sampler).

Definition dataset_of (l : loader) : string :=
  match l with
  | LibraryLoader db => db
  | ALoader db _ _ _ => db
  end.

Inductive processor : Type :=
| LibraryProcessor
| MGPatching (model : string) (in_norm out_norm : string) (levels : Z)
| OnDevice (p : processor) (device : string).

Inductive loss : Type :=
| ALpLoss (d p : Z)
| AH1Loss (d : Z).

Definition lib : Lib :=
  {| Leaf := scalar;
     RawConfig := Config;
     Device := string;
     Dataset := string;
     Loader := loader;
     Sampler := sampler;
     Rank := Z;
     Model := string;
     Params := string;
     Processor := processor;
     Normalizer := string;
     Optimizer := unit;
     Scheduler := unit;
     Loss := loss;
     TrainerObj := unit;
     Metric := Z |}.

Record Scenario : Type := {
  sc_toml : outcome (list (string * toml scalar));
  sc_config : Config;
  sc_is_logger : bool;
  sc_test_loaders : list (Z * loader);
  sc_resume : outcome unit;
  sc_metrics : list (string * Z);
  sc_initialized : bool
}.

Definition path_text (p : PyPath) : string :=
  match p with
  | Path s => s
  | Expanduser _ => "~"
  end.

Definition world (sc : Scenario) : World lib :=
  {| py_str := scalar_str : Leaf lib -> string;
     str_path := path_text;
     str_metric := (fun z => NilZero.string_of_int (Z.to_int z)) : Metric lib -> string;
     loader_dataset := dataset_of : Loader lib -> Dataset lib;
     in_normalizer := (fun _ => "in_normalizer") : Processor lib -> Normalizer lib;
     out_normalizer := (fun _ => "out_normalizer") : Processor lib -> Normalizer lib;
     parameters := (fun m => m) : Model lib -> Params lib;
     sys_path_insert := Ok tt;
     import_module := fun _ => Ok tt;
     load_toml := fun _ => sc_toml sc;
     make_config_from_cli := (fun _ => Ok (sc_config sc)) : _ -> outcome (RawConfig lib);
     to_dict := (fun raw => Ok raw) : RawConfig lib -> _;
     setup := (fun _ => Ok ("cuda:0", sc_is_logger sc)) : _ -> outcome (Device lib * bool);
     load_navier_stokes_pt :=
       (fun _ => Ok (LibraryLoader "train_db", sc_test_loaders sc, LibraryProcessor))
       : _ -> outcome (Loader lib * list (Z * Loader lib) * Processor lib);
     get_model := (fun _ => Ok "fno") : _ -> outcome (Model lib);
     model_to := (fun m _ => Ok m) : Model lib -> Device lib -> outcome (Model lib);
     MGPatchingDataProcessor :=
       (fun a => Ok (MGPatching (mg_model a) (mg_in_normalizer a)
                                (mg_out_normalizer a) (mg_levels a)))
       : MGPatchingArgs lib -> outcome (Processor lib);
     processor_to := (fun p d => Ok (OnDevice p d))
       : Processor lib -> Device lib -> outcome (Processor lib);
     get_local_rank := Ok 0%Z : outcome (Rank lib);
     DistributedSampler := (fun db r => Ok (ASampler db r))
       : Dataset lib -> Rank lib -> outcome (Sampler lib);
     DataLoader :=
       (fun a => Ok (ALoader (dl_dataset a) (dl_batch_size a) (dl_shuffle a) (dl_sampler a)))
       : DataLoaderArgs lib -> outcome (Loader lib);
     AdamW := (fun _ _ => Ok tt) : Params lib -> _ -> outcome (Optimizer lib);
     StepLR := (fun _ _ _ => Ok tt) : Optimizer lib -> _ -> _ -> outcome (Scheduler lib);
     LpLoss := (fun d p => Ok (ALpLoss d p)) : _ -> _ -> outcome (Loss lib);
     H1Loss := (fun d => Ok (AH1Loss d)) : _ -> outcome (Loss lib);
     Trainer := (fun _ => Ok tt) : TrainerArgs lib -> outcome (TrainerObj lib);
     resume_state_from_dir := (fun _ _ => sc_resume sc) : TrainerObj lib -> _ -> _;
     evaluate_all := (fun _ _ => Ok (sc_metrics sc))
       : TrainerObj lib -> EvaluateArgs lib -> outcome (list (string * Metric lib));
     is_initialized := Ok (sc_initialized sc);
     destroy_process_group := Ok tt |}.

Definition a_config (verbose_flag distributed_flag : bool) (patch_levels : Z)
           (test_bs : list pyval) : Config :=
  {| verbose := verbose_flag;
     data := {| folder := "~/data/navier_stokes";
                train_resolution := PyInt 128;
                n_train := PyInt 10000;
                batch_size := PyInt 8;
                test_resolutions := PyList [PyInt 64; PyInt 128];
                n_tests := PyList [PyInt 200; PyInt 200];
                test_batch_sizes := test_bs;
                encode_input := PyBool true;
                encode_output := PyBool true |};
     patching := {| levels := patch_levels; padding := PyFloat "0.078125";
                    stitching := PyBool true |};
     distributed := {| use_distributed := distributed_flag |};
     opt := {| learning_rate := PyFloat "0.0003"; n_epochs := PyInt 600;
               mixed_precision := PyBool false; eval_interval := PyInt 1 |};
     wandb := {| log_output := PyBool true |};
     other_sections := [("arch", PyStr "fno")] |}.

Definition two_loaders : list (Z * loader) :=
  [(64%Z, LibraryLoader "test_db_64"); (128%Z, LibraryLoader "test_db_128")].

(** A single process, checkpoint there, nothing distributed. *)
Definition plain : Scenario :=
  {| sc_toml := Ok [("data", TDict [("n_train", TLeaf (SInt 100))]);
                    ("verbose", TLeaf (SBool true))];
     sc_config := a_config true false 0 [PyInt 4; PyInt 4];
     sc_is_logger := true;
     sc_test_loaders := two_loaders;
     sc_resume := Ok tt;
     sc_metrics := [("64_h1", 3%Z); ("64_l2", 1%Z)];
     sc_initialized := false |}.

Definition with_resume (r : outcome unit) (sc : Scenario) : Scenario :=
  {| sc_toml := sc_toml sc; sc_config := sc_config sc;
     sc_is_logger := sc_is_logger sc; sc_test_loaders := sc_test_loaders sc;
     sc_resume := r; sc_metrics := sc_metrics sc;
     sc_initialized := sc_initialized sc |}.

(** The checkpoint directory holds no state file. *)
Definition missing_checkpoint : Scenario :=
  with_resume (Raise (Exception "FileNotFoundError" "no checkpoint found")) plain.

(** The user interrupts the run while the checkpoint loads. *)
Definition interrupted : Scenario :=
  with_resume (Raise KeyboardInterrupt) plain.

(** The file named by [--config] is not valid TOML. *)
Definition bad_toml : Scenario :=
  {| sc_toml := Raise (Exception "TOMLDecodeError" "Invalid statement (at line 1, column 1)");
     sc_config := sc_config plain; sc_is_logger := true;
     sc_test_loaders := two_loaders; sc_resume := Ok tt;
     sc_metrics := []; sc_initialized := false |}.

(** A worker of a distributed run, not the logging one, with patching; the
    configuration names one test batch size for two test resolutions. *)
Definition worker : Scenario :=
  {| sc_toml := Ok [];
     sc_config := a_config true true 1 [PyInt 4];
     sc_is_logger := false;
     sc_test_loaders := two_loaders;
     sc_resume := Ok tt;
     sc_metrics := [("64_h1", 3%Z)];
     sc_initialized := true |}.


Definition script : string := "scripts/evaluate_navier_stokes.py".

End Demo.


(** ** Vocabulary for the statements *)

Section Vocabulary.
Variable L : Lib.
Variable W : World L.

(** The one call that stands inside a [try]. *)
Definition in_try (c : call L) : bool :=
  match c with
  | CResumeStateFromDir _ _ => true
  | _ => false
  end.

(** An event that does not end the run: anything but a call that raised
    outside the [try]. *)
Definition quiet (ev : event L) : Prop :=
  match ev with
  | Called c (Some _) => in_try c = true
  | _ => True
  end.

(** A run either returns with no such event behind it, or ends in the call
    that raised, with the exception of that call as its result. *)
Definition propagating {A} (m : M L A) : Prop :=
  match snd m with
  | Ok _ => Forall quiet (fst m)
  | Raise e => exists pre c, fst m = pre ++ [Called c (Some e)] /\ Forall quiet pre
  end.


(** The three calls of the distributed setup never raise. *)
Definition loaders_constructible : Prop :=
  (exists rank, get_local_rank W = Ok rank) /\
  (forall db rank, exists s, DistributedSampler W db rank = Ok s) /\
  (forall a, exists l, DataLoader W a = Ok l).

(** The calls of lines 147-173; [prepare] makes none of them. *)
Definition late_call (ev : event L) : bool :=
  match ev with
  | Called (CResumeStateFromDir _ _) _
  | Called (CEvaluateAll _ _) _
  | Called CIsInitialized _
  | Called CDestroyProcessGroup _
  | Called (CSysExit _) _ => true
  | _ => false
  end.

(** What the evaluation prints and calls when [evaluate_all] returns [metrics]. *)
Definition evaluation_trace (trainer : TrainerObj L) (losses : list (string * Loss L))
           (tests : list (Z * Loader L)) (metrics : list (string * Metric L))
  : list (event L) :=
  [Print "Starting evaluation...";
   Called (CEvaluateAll trainer (evaluate_args losses tests)) None;
   Print results_header]
  ++ map (fun kv => Print (fst kv ++ ": " ++ str_metric W (snd kv))%string) metrics.

(** What the checkpoint block prints and calls when the checkpoint loads. *)
Definition loaded_trace (trainer : TrainerObj L) (args : Argparse.Namespace)
  : list (event L) :=
  [Print ("Loading checkpoint from "
          ++ str_path W (Path (Argparse.checkpoint args)) ++ "...")%string;
   Called (CResumeStateFromDir trainer (Path (Argparse.checkpoint args))) None;
   Print "Checkpoint loaded successfully."].

Definition is_destroy (ev : event L) : bool :=
  match ev with
  | Called CDestroyProcessGroup _ => true
  | _ => false
  end.

Definition is_evaluate (ev : event L) : bool :=
  match ev with
  | Called (CEvaluateAll _ _) _ => true
  | _ => false
  end.

(** The calls made inside the blocks of [prepare] that have a name of
    their own ([manual_config_parsing], [dataprocessor_setup],
    [distributed_data_parallel_setup]). *)
Definition block_event (ev : event L) : bool :=
  match ev with
  | Called (CLoadToml _) _
  | Called (CMGPatchingDataProcessor _) _
  | Called (CProcessorTo _ _) _
  | Called CGetLocalRank _
  | Called (CDistributedSampler _ _) _
  | Called (CDataLoader _) _ => true
  | _ => false
  end.

(** What lines 147-173 can do: the messages of that part (none of which is
    the configuration header) and its five calls. *)
Definition finish_event (ev : event L) : Prop :=
  match ev with
  | Print s => s <> config_header
  | PrintConfig _ => False
  | Called c _ =>
      match c with
      | CResumeStateFromDir _ _ | CEvaluateAll _ _ | CIsInitialized
      | CDestroyProcessGroup | CSysExit _ => True
      | _ => False
      end
  end.

Fixpoint has_colon (s : string) : bool :=
  match s with
  | EmptyString => false
  | String c s' => Ascii.eqb c ":"%char || has_colon s'
  end.

End Vocabulary.

(** Lines 147-173 of [main]: what follows [prepare]. *)
Definition finish {L : Lib} (W : World L) (st : Prepared L) : M L unit :=
  bind (load_checkpoint W (p_trainer st) (p_args st))
       (fun _ => bind (evaluate W (p_trainer st) (p_eval_losses st) (p_test_loaders st))
                      (fun _ => cleanup W)).



(** ** Further vocabulary *)

(** A path without its leading empty keys. *)
Fixpoint skip_empty (path : list string) : list string :=
  match path with
  | EmptyString :: path' => skip_empty path'
  | _ => path
  end.

(** A command line made of pairs: an option string ["--..."], then its value. *)
Fixpoint option_pairs (l : list string) : bool :=
  match l with
  | [] => true
  | k :: _ :: l' => String.prefix "--" k && option_pairs l'
  | [_] => false
  end.

Definition is_dataloader {L : Lib} (ev : event L) : bool :=
  match ev with
  | Called (CDataLoader _) _ => true
  | _ => false
  end.

(** The calls that build distributed loaders. *)
Definition distributed_call {L : Lib} (ev : event L) : bool :=
  match ev with
  | Called CGetLocalRank _
  | Called (CDistributedSampler _ _) _
  | Called (CDataLoader _) _ => true
  | _ => false
  end.
(** ** Facts about [flatten_to_args] *)

Lemma string_app_assoc (a b c : string) : ((a ++ b) ++ c = a ++ (b ++ c))%string.
Proof. induction a as [|x a IH]; simpl; [reflexivity|now rewrite IH]. Qed.

Lemma truthy_app_l (s t : string) : truthy s = true -> truthy (s ++ t) = true.
Proof. destruct s; simpl; congruence. Qed.

Section TomlFacts.
Variable leaf : Type.
Variable str : leaf -> string.

Lemma flatten_to_args_nil prefix : flatten_to_args str [] prefix = [].
Proof. reflexivity. Qed.

(** One iteration of the loop, as the source has it. *)
Lemma flatten_to_args_cons k v d prefix :
  flatten_to_args str ((k, v) :: d) prefix =
  (match v with
   | TDict d2 => flatten_to_args str d2 (join_key prefix k)
   | TLeaf x => [("--" ++ join_key prefix k)%string; str x]
   end) ++ flatten_to_args str d prefix.
Proof. destruct v; reflexivity. Qed.

(** Induction over a document, with the hypothesis for every value of a table. *)
Lemma toml_nested_ind (P : toml leaf -> Prop)
      (Hleaf : forall x, P (TLeaf x))
      (Hdict : forall d, Forall (fun kv => P (snd kv)) d -> P (TDict d)) :
  forall v, P v.
Proof.
  fix IH 1. intros [x|d]; [apply Hleaf|].
  apply Hdict. induction d as [|kv d IHd]; constructor; [apply IH|exact IHd].
Qed.

Lemma dotted_snoc (path : list string) (k : string) :
  dotted (path ++ [k]) =
  match path with
  | [] => k
  | _ :: _ => (dotted path ++ "." ++ k)%string
  end.
Proof.
  unfold dotted.
  induction path as [|a path IH]; [reflexivity|].
  destruct path as [|b path]; [reflexivity|].
  change (String.concat "." ((a :: b :: path) ++ [k]))
    with (a ++ "." ++ String.concat "." ((b :: path) ++ [k]))%string.
  rewrite IH.
  change (String.concat "." (a :: b :: path))
    with (a ++ "." ++ String.concat "." (b :: path))%string.
  now rewrite !string_app_assoc.
Qed.



End TomlFacts.


(** ** The parser on sample command lines *)

Example parse_plain :
  Argparse.parse_known_args ["--config"; "c.toml"; "--data.n_train"; "10"; "--checkpoint=run1"]
  = Ok ({| Argparse.config := Some "c.toml"; Argparse.checkpoint := "run1" |},
        ["--data.n_train"; "10"]).
Proof. reflexivity. Qed.

Example parse_abbreviation :
  Argparse.parse_known_args ["--check"; "run2"; "x"]
  = Ok ({| Argparse.config := None; Argparse.checkpoint := "run2" |}, ["x"]).
Proof. reflexivity. Qed.

Example parse_ambiguous : Argparse.parse_known_args ["--c"; "x"] = Raise (SystemExit 2).
Proof. reflexivity. Qed.

Example parse_missing_value :
  Argparse.parse_known_args ["--checkpoint"; "--config"; "x"] = Raise (SystemExit 2).
Proof. reflexivity. Qed.

Example parse_help : Argparse.parse_known_args ["x"; "--help"] = Raise (SystemExit 0).
Proof. reflexivity. Qed.


(** ** The trace monad *)

Lemma app_peel {X} (x rest pre tail : list X) :
  rest = pre ++ tail -> x ++ rest = (x ++ pre) ++ tail.
Proof. intros ->. now rewrite app_assoc. Qed.

Lemma app_here {X} (x rest tail : list X) :
  rest = tail -> x ++ rest = [] ++ x ++ tail.
Proof. now intros ->. Qed.

Section MonadFacts.
Variable L : Lib.

Lemma bind_Ok {A B} (m : M L A) (k : A -> M L B) t a :
  m = (t, Ok a) -> bind m k = (t ++ fst (k a), snd (k a)).
Proof. intros ->. unfold bind. now destruct (k a). Qed.

Lemma bind_Raise {A B} (m : M L A) (k : A -> M L B) t e :
  m = (t, Raise e) -> bind m k = (t, Raise e).
Proof. now intros ->. Qed.

Lemma ext_Ok {A} (c : call L) (r : outcome A) a :
  r = Ok a -> ext c r = ([Called c None], Ok a).
Proof. now intros ->. Qed.

Lemma ext_Raise {A} (c : call L) (r : outcome A) e :
  r = Raise e -> ext (A:=A) c r = ([Called c (Some e)], Raise e).
Proof. now intros ->. Qed.

Lemma ext_Ok_inv {A} (c : call L) (r : outcome A) t a :
  ext c r = (t, Ok a) -> r = Ok a /\ t = [Called c None].
Proof. destruct r; simpl; intros H; inversion H; auto. Qed.

Lemma ext_result {A} (c : call L) (r : outcome A) : snd (ext c r) = r.
Proof. now destruct r. Qed.

(** An event of [m ;; k] is one of [m], or one of [k] after [m] returned. *)
Lemma in_bind_inv {A B} (m : M L A) (k : A -> M L B) ev :
  In ev (fst (bind m k)) ->
  In ev (fst m) \/ exists t a, m = (t, Ok a) /\ In ev (fst (k a)).
Proof.
  destruct m as [t [a|e]]; simpl; [|now left].
  destruct (k a) as [t' r] eqn:E. simpl. intros H.
  apply in_app_or in H as [H|H]; [now left|].
  right. exists t, a. rewrite E. auto.
Qed.

Lemma in_ext_inv {A} (c : call L) (r : outcome A) ev :
  In ev (fst (ext c r)) ->
  (ev = Called c None /\ exists a, r = Ok a) \/
  (exists e, ev = Called c (Some e) /\ r = Raise e).
Proof.
  destruct r as [a|e]; simpl; intros [H|[]]; subst; eauto.
Qed.

(** A property of every event of [m ;; k]. *)
Lemma Forall_bind {A B} (P : event L -> Prop) (m : M L A) (k : A -> M L B) :
  Forall P (fst m) ->
  (forall t a, m = (t, Ok a) -> Forall P (fst (k a))) ->
  Forall P (fst (bind m k)).
Proof.
  destruct m as [t [a|e]]; simpl; intros Hm Hk; [|exact Hm].
  specialize (Hk t a eq_refl). destruct (k a) as [t' r]. simpl in *.
  apply Forall_app; auto.
Qed.

Lemma Forall_ext {A} (P : event L -> Prop) (c : call L) (r : outcome A) :
  (forall o, P (Called c o)) -> Forall P (fst (ext c r)).
Proof. intros H. destruct r; simpl; constructor; auto. Qed.

Lemma Forall_for_each {A} (P : event L -> Prop) (xs : list A) (body : A -> M L unit) :
  (forall x, Forall P (fst (body x))) -> Forall P (fst (for_each xs body)).
Proof.
  intros H. induction xs as [|x xs IH]; simpl; [constructor|].
  apply Forall_bind; auto.
Qed.

(** Printing a list line by line. *)
Lemma for_each_print {A} (xs : list A) (f : A -> string) :
  for_each (L:=L) xs (fun x => print (f x)) = (map (fun x => Print (f x)) xs, Ok tt).
Proof.
  induction xs as [|x xs IH]; [reflexivity|].
  simpl. rewrite IH. reflexivity.
Qed.

(** A run of [m ;; k] starts with the run of [m]. *)
Lemma bind_trace_prefix {A B} (m : M L A) (k : A -> M L B) :
  exists rest, fst (bind m k) = fst m ++ rest.
Proof.
  destruct m as [t [a|e]]; simpl.
  - destruct (k a) as [t' r]. now exists t'.
  - exists []. now rewrite app_nil_r.
Qed.

Lemma bind_Ok_inv {A B} (m : M L A) (k : A -> M L B) t b :
  bind m k = (t, Ok b) ->
  exists t1 a t2, m = (t1, Ok a) /\ k a = (t2, Ok b) /\ t = t1 ++ t2.
Proof.
  destruct m as [t1 [a|e]]; simpl; [|discriminate].
  destruct (k a) as [t2 r] eqn:E. intros H. inversion H; subst.
  now exists t1, a, t2.
Qed.

Lemma fst_bind_Ok {A B} (m : M L A) (k : A -> M L B) t a :
  m = (t, Ok a) -> fst (bind m k) = t ++ fst (k a).
Proof. intros H. now rewrite (bind_Ok _ H). Qed.

Lemma fst_bind_ext_ret {A B} (c : call L) (r : outcome A) (f : A -> B) :
  fst (bind (ext c r) (fun x => ret (f x))) = fst (ext c r).
Proof. destruct r; reflexivity. Qed.

Lemma in_ext_single {A} (c : call L) (r : outcome A) ev :
  In ev (fst (ext c r)) -> fst (ext c r) = [ev].
Proof. destruct r; simpl; intros [->|[]]; reflexivity. Qed.

End MonadFacts.

(** ** Exceptions propagate *)

Section Propagation.
Variable L : Lib.
Variable W : World L.

Lemma propagating_ret {A} (a : A) : propagating (ret (L:=L) a).
Proof. constructor. Qed.

Lemma propagating_print s : propagating (print (L:=L) s).
Proof. repeat constructor. Qed.

Lemma propagating_print_config c : propagating (print_config (L:=L) c).
Proof. repeat constructor. Qed.

Lemma propagating_ext {A} (c : call L) (r : outcome A) : propagating (ext c r).
Proof.
  destruct r as [a|e]; unfold propagating; simpl.
  - repeat constructor.
  - exists [], c. split; [reflexivity|constructor].
Qed.

Lemma propagating_bind {A B} (m : M L A) (k : A -> M L B) :
  propagating m ->
  (forall t a, m = (t, Ok a) -> propagating (k a)) ->
  propagating (bind m k).
Proof.
  destruct m as [t [a|e]]; unfold propagating; simpl; intros Hm Hk; [|exact Hm].
  specialize (Hk t a eq_refl). destruct (k a) as [t' [b|e]]; simpl in *.
  - apply Forall_app; auto.
  - destruct Hk as (pre & c & -> & Hpre).
    exists (t ++ pre), c. split; [now rewrite app_assoc|].
    apply Forall_app; auto.
Qed.

Lemma propagating_for_each {A} (xs : list A) (body : A -> M L unit) :
  (forall x, propagating (body x)) -> propagating (for_each xs body).
Proof.
  intros H. induction xs as [|x xs IH]; simpl.
  - apply propagating_ret.
  - apply propagating_bind; auto.
Qed.

(** One step through a block: a bind, a call, a print, or a branch. *)
Ltac propagate_step :=
  first
    [ apply propagating_ret
    | apply propagating_print
    | apply propagating_print_config
    | apply propagating_ext
    | apply propagating_for_each; intros ?
    | apply propagating_bind; [|intros ? ? _]
    | match goal with
      | |- propagating (match ?x with (_, _) => _ end) => destruct x
      | |- propagating (if ?b then _ else _) => destruct b
      | |- propagating (match ?x with Some _ => _ | None => _ end) => destruct x
      end ].

Ltac propagate := repeat propagate_step.

Lemma propagating_manual_config_parsing prog argv args unknown :
  propagating (manual_config_parsing W prog argv args unknown).
Proof. unfold manual_config_parsing. propagate. Qed.

Lemma propagating_dataprocessor_setup config model device dp :
  propagating (dataprocessor_setup W config model device dp).
Proof. unfold dataprocessor_setup. propagate. Qed.

Lemma propagating_distributed_loader db b sh :
  propagating (distributed_loader W db b sh).
Proof. unfold distributed_loader. propagate. Qed.

Lemma propagating_rewrap_test_loaders bs : forall i tests,
  propagating (rewrap_test_loaders W i bs tests).
Proof.
  induction bs as [|b bs IH]; intros i tests; simpl.
  - destruct (nth_error tests i) as [[res l]|]; apply propagating_ret.
  - destruct (nth_error tests i) as [[res l]|]; [|apply propagating_ret].
    apply propagating_bind; [apply propagating_distributed_loader|].
    intros; apply IH.
Qed.

Lemma propagating_distributed_data_parallel_setup config train tests :
  propagating (distributed_data_parallel_setup W config train tests).
Proof.
  unfold distributed_data_parallel_setup.
  destruct (use_distributed (distributed config)); [|apply propagating_ret].
  apply propagating_bind; [apply propagating_distributed_loader|intros].
  apply propagating_bind; [apply propagating_rewrap_test_loaders|intros].
  apply propagating_ret.
Qed.

Lemma propagating_prepare prog cli : propagating (prepare W prog cli).
Proof.
  unfold prepare.
  repeat first
    [ apply propagating_manual_config_parsing
    | apply propagating_dataprocessor_setup
    | apply propagating_distributed_data_parallel_setup
    | propagate_step ].
Qed.

(** The [try] around the checkpoint: what it does in each of the three cases. *)
Lemma load_checkpoint_cases trainer args :
  let dir := Path (Argparse.checkpoint args) in
  let loading := Print (L:=L) ("Loading checkpoint from " ++ str_path W dir ++ "...")%string in
  match resume_state_from_dir W trainer dir with
  | Ok _ =>
      load_checkpoint W trainer args =
      ([loading; Called (CResumeStateFromDir trainer dir) None;
        Print "Checkpoint loaded successfully."], Ok tt)
  | Raise e =>
      if is_Exception e then
        load_checkpoint W trainer args =
        ([loading; Called (CResumeStateFromDir trainer dir) (Some e);
          Print ("Error loading checkpoint: " ++ exc_str e)%string;
          Print hint_message;
          Called (CSysExit 1) (Some (SystemExit 1))], Raise (SystemExit 1))
      else
        load_checkpoint W trainer args =
        ([loading; Called (CResumeStateFromDir trainer dir) (Some e)], Raise e)
  end.
Proof.
  unfold load_checkpoint. cbv zeta.
  destruct (resume_state_from_dir W trainer (Path (Argparse.checkpoint args)))
    as [[]|e]; simpl; [reflexivity|].
  destruct (is_Exception e); reflexivity.
Qed.

Lemma propagating_load_checkpoint trainer args :
  propagating (load_checkpoint W trainer args).
Proof.
  pose proof (load_checkpoint_cases trainer args) as H. cbv zeta in H.
  destruct (resume_state_from_dir W trainer (Path (Argparse.checkpoint args)))
    as [[]|e].
  - rewrite H. repeat constructor.
  - destruct (is_Exception e); rewrite H; unfold propagating; simpl.
    + eexists [_; _; _; _], _. split; [reflexivity|]. repeat constructor.
    + eexists [_], _. split; [reflexivity|]. repeat constructor.
Qed.

Lemma propagating_main prog cli : propagating (main W prog cli).
Proof.
  unfold main, evaluate, cleanup.
  repeat first
    [ apply propagating_prepare
    | apply propagating_load_checkpoint
    | propagate_step ].
Qed.

End Propagation.

(** ** The loop over the test loaders *)

Section DictFacts.
Variable V : Type.

Lemma dict_set_keys (d : list (Z * V)) (k : Z) (v : V) :
  In k (map fst d) -> map fst (dict_set d k v) = map fst d.
Proof.
  induction d as [|[k' v'] d IH]; simpl; [tauto|].
  destruct (Z.eqb_spec k' k) as [->|Hne]; [reflexivity|].
  intros [H|H]; [contradiction|]. simpl. now rewrite IH.
Qed.


End DictFacts.

Section LoaderFacts.
Variable L : Lib.
Variable W : World L.


Lemma distributed_loader_total db b sh :
  loaders_constructible W -> exists t l, distributed_loader W db b sh = (t, Ok l).
Proof.
  intros ([rank Hr] & Hs & Hl). unfold distributed_loader.
  destruct (Hs db rank) as [s Hs'].
  destruct (Hl {| dl_dataset := db; dl_batch_size := b;
                  dl_shuffle := sh; dl_sampler := s |}) as [l Hl'].
  rewrite Hr. simpl. rewrite Hs'. simpl. rewrite Hl'. simpl. eauto.
Qed.


Lemma rewrap_test_loaders_total bs : forall i tests,
  loaders_constructible W -> exists t tests', rewrap_test_loaders W i bs tests = (t, Ok tests').
Proof.
  induction bs as [|b bs IH]; intros i tests HW; simpl.
  - destruct (nth_error tests i) as [[? ?]|]; unfold ret; eauto.
  - destruct (nth_error tests i) as [[res l]|]; [|unfold ret; eauto].
    destruct (distributed_loader_total (loader_dataset W l) b (Some false) HW)
      as (t1 & new & ->).
    destruct (IH (S i) (dict_set tests res new) HW) as (t2 & tests' & Hrest).
    simpl. rewrite Hrest. eauto.
Qed.

End LoaderFacts.

(** ** The parser keeps its defaults *)

Section ArgparseFacts.
Import Argparse.

(** An option pattern comes from reading that argument string. *)
Lemma classify_options : forall args ps,
  classify args = Ok ps ->
  forall s act o e, In (s, PO act o e) ps ->
    In s args /\ parse_optional s = Optional act o e.
Proof.
  induction args as [|a rest IH]; intros ps H s act o e Hin; simpl in H.
  - inversion H; subst. contradiction.
  - destruct (String.eqb a "--").
    + inversion H; subst. destruct Hin as [Hin|Hin]; [discriminate|].
      apply in_map_iff in Hin as (x & Hx & _). discriminate.
    + destruct (parse_optional a) as [|act' o' e'|] eqn:Ha; [| |discriminate];
        destruct (classify rest) as [ps'|] eqn:Hrest; try discriminate;
        inversion H; subst; destruct Hin as [Hin|Hin];
        try discriminate;
        try (destruct (IH _ eq_refl _ _ _ _ Hin) as [H1 H2]; split; [now right|exact H2]).
      inversion Hin; subst. split; [now left|exact Ha].
Qed.

Lemma classify_strings : forall args ps, classify args = Ok ps -> map fst ps = args.
Proof.
  induction args as [|a rest IH]; intros ps H; simpl in H.
  - now inversion H.
  - destruct (String.eqb a "--").
    + inversion H; subst. simpl. f_equal. rewrite map_map. simpl. apply map_id.
    + destruct (parse_optional a); [| |discriminate];
        destruct (classify rest) as [ps'|] eqn:Hrest; try discriminate;
        inversion H; subst; simpl; f_equal; now apply IH.
Qed.

(** Only the [--checkpoint] action writes [args.checkpoint]. *)
Lemma take_action_checkpoint a v ns :
  a <> StoreCheckpoint -> checkpoint (take_action a v ns) = checkpoint ns.
Proof. destruct a; simpl; congruence. Qed.

Lemma consume_keeps_checkpoint : forall ps m ns extras ns' unknown,
  (forall s o e, ~ In (s, PO (Some StoreCheckpoint) o e) ps) ->
  m <> ExpectValue StoreCheckpoint ->
  consume m ps ns extras = Ok (ns', unknown) ->
  checkpoint ns' = checkpoint ns.
Proof.
  induction ps as [|[s p] ps IH]; intros m ns extras ns' unknown Hno Hm H; simpl in H.
  - destruct m; [|discriminate]. now inversion H.
  - assert (Hno' : forall s o e, ~ In (s, PO (Some StoreCheckpoint) o e) ps)
      by (intros s' o e Hin; apply (Hno s' o e); now right).
    assert (Hscan : Scanning <> ExpectValue StoreCheckpoint) by discriminate.
    destruct m as [|a].
    + destruct p as [| |[act|] o e].
      * exact (IH _ _ _ _ _ Hno' Hscan H).
      * exact (IH _ _ _ _ _ Hno' Hscan H).
      * destruct act; [discriminate| |].
        -- destruct e as [v|].
           ++ rewrite (IH _ _ _ _ _ Hno' Hscan H). reflexivity.
           ++ apply (IH _ _ _ _ _ Hno') in H; [exact H|discriminate].
        -- exfalso. apply (Hno s o e). now left.
      * exact (IH _ _ _ _ _ Hno' Hscan H).
    + destruct p; try discriminate.
      rewrite (IH _ _ _ _ _ Hno' Hscan H).
      apply take_action_checkpoint. congruence.
Qed.

(** The parser returns the argument strings it did not use, in order:
    every unknown argument is one of the command line. *)
Lemma consume_extras : forall ps m ns extras ns' unknown,
  consume m ps ns extras = Ok (ns', unknown) ->
  forall s, In s unknown -> In s extras \/ In s (map fst ps).
Proof.
  induction ps as [|[s p] ps IH]; intros m ns extras ns' unknown H x Hx; simpl in H.
  - destruct m; [|discriminate]. inversion H; subst.
    left. now apply in_rev.
  - destruct m as [|a].
    + destruct p as [| |[act|] o e];
        try (destruct (IH _ _ _ _ _ H x Hx) as [[<-|Hin]|Hin]; simpl; auto).
      destruct act; [discriminate| |];
        (destruct e as [v|];
         destruct (IH _ _ _ _ _ H x Hx) as [Hin|Hin]; simpl; auto).
    + destruct p; try discriminate.
      destruct (IH _ _ _ _ _ H x Hx) as [Hin|Hin]; simpl; auto.
Qed.

End ArgparseFacts.

(** ** Which events come from where *)

Section Events.
Variable L : Lib.
Variable W : World L.

Ltac block_events :=
  repeat first
    [ apply Forall_nil
    | apply Forall_ext; intros ?; reflexivity
    | apply Forall_bind; [|intros ? ? _]
    | match goal with
      | |- Forall _ (fst (if ?b then _ else _)) => destruct b
      | |- Forall _ (fst (match ?x with Some _ => _ | None => _ end)) => destruct x
      end ].

Lemma manual_config_parsing_events prog argv args unknown :
  Forall (fun ev => block_event ev = true)
         (fst (manual_config_parsing W prog argv args unknown)).
Proof. unfold manual_config_parsing. block_events. Qed.

Lemma dataprocessor_setup_events config model device dp :
  Forall (fun ev => block_event ev = true)
         (fst (dataprocessor_setup W config model device dp)).
Proof. unfold dataprocessor_setup. block_events. Qed.

Lemma distributed_loader_events db b sh :
  Forall (fun ev => block_event ev = true) (fst (distributed_loader W db b sh)).
Proof. unfold distributed_loader. block_events. Qed.

Lemma rewrap_test_loaders_events bs : forall i tests,
  Forall (fun ev => block_event ev = true) (fst (rewrap_test_loaders W i bs tests)).
Proof.
  induction bs as [|b bs IH]; intros i tests; simpl.
  - destruct (nth_error tests i) as [[? ?]|]; constructor.
  - destruct (nth_error tests i) as [[res l]|]; [|constructor].
    apply Forall_bind; [apply distributed_loader_events|intros; apply IH].
Qed.

Lemma distributed_data_parallel_setup_events config train tests :
  Forall (fun ev => block_event ev = true)
         (fst (distributed_data_parallel_setup W config train tests)).
Proof.
  unfold distributed_data_parallel_setup.
  destruct (use_distributed (distributed config)); [|constructor].
  apply Forall_bind; [apply distributed_loader_events|intros].
  apply Forall_bind; [apply rewrap_test_loaders_events|intros]. constructor.
Qed.

Lemma block_events_early (t : list (event L)) :
  Forall (fun ev => block_event ev = true) t -> Forall (fun ev => late_call ev = false) t.
Proof.
  apply Forall_impl. intros ev. destruct ev as [s|c|c o]; simpl; try reflexivity.
  destruct c; simpl; try reflexivity; discriminate.
Qed.

(** [prepare] makes none of the calls of lines 147-173. *)
Lemma prepare_events prog cli :
  Forall (fun ev => late_call ev = false) (fst (prepare W prog cli)).
Proof.
  unfold prepare.
  repeat first
    [ apply Forall_nil
    | apply block_events_early;
      first [ apply manual_config_parsing_events
            | apply dataprocessor_setup_events
            | apply distributed_data_parallel_setup_events ]
    | apply Forall_ext; intros ?; reflexivity
    | apply Forall_cons; [reflexivity|]
    | apply Forall_bind; [|intros ? ? _]
    | match goal with
      | |- Forall _ (fst (if ?b then _ else _)) => destruct b
      | |- Forall _ (fst (match ?x with (_, _) => _ end)) => destruct x
      end ].
Qed.

Lemma not_block_event (t : list (event L)) (ev : event L) :
  Forall (fun ev => block_event ev = true) t -> block_event ev = false -> ~ In ev t.
Proof.
  intros Hall Hev Hin. rewrite Forall_forall in Hall.
  specialize (Hall ev Hin). congruence.
Qed.

Lemma has_colon_app (a b : string) : has_colon (a ++ String ":" b) = true.
Proof.
  induction a as [|c a IH]; simpl; [reflexivity|].
  rewrite IH. apply orb_true_r.
Qed.

Lemma metric_line_not_header (kv : string * Metric L) : metric_line W kv <> config_header.
Proof.
  unfold metric_line. intros H.
  pose proof (has_colon_app (fst kv) (String " " (str_metric W (snd kv)))) as Hc.
  change (has_colon (fst kv ++ ": " ++ str_metric W (snd kv)) = true) in Hc.
  rewrite H in Hc. discriminate Hc.
Qed.

(** The rest of [main], case by case: the checkpoint fails (caught or
    not), the evaluation raises, the query or the teardown raises, or the
    run ends with or without teardown. *)
Lemma finish_cases st :
  let trainer := p_trainer st in
  let dir := Path (Argparse.checkpoint (p_args st)) in
  let loading := Print (L:=L) ("Loading checkpoint from " ++ str_path W dir ++ "...")%string in
  let losses := p_eval_losses st in
  let tests := p_test_loaders st in
  finish W st =
  match resume_state_from_dir W trainer dir with
  | Raise e =>
      if is_Exception e then
        ([loading; Called (CResumeStateFromDir trainer dir) (Some e);
          Print ("Error loading checkpoint: " ++ exc_str e)%string;
          Print hint_message;
          Called (CSysExit 1) (Some (SystemExit 1))], Raise (SystemExit 1))
      else ([loading; Called (CResumeStateFromDir trainer dir) (Some e)], Raise e)
  | Ok _ =>
      match evaluate_all W trainer (evaluate_args losses tests) with
      | Raise e =>
          (loaded_trace W trainer (p_args st)
           ++ [Print "Starting evaluation...";
               Called (CEvaluateAll trainer (evaluate_args losses tests)) (Some e)],
           Raise e)
      | Ok metrics =>
          let done := loaded_trace W trainer (p_args st)
                      ++ evaluation_trace W trainer losses tests metrics in
          match is_initialized W with
          | Raise e => (done ++ [Called CIsInitialized (Some e)], Raise e)
          | Ok false => (done ++ [Called CIsInitialized None], Ok tt)
          | Ok true =>
              match destroy_process_group W with
              | Ok _ => (done ++ [Called CIsInitialized None;
                                  Called CDestroyProcessGroup None], Ok tt)
              | Raise e => (done ++ [Called CIsInitialized None;
                                     Called CDestroyProcessGroup (Some e)], Raise e)
              end
          end
      end
  end.
Proof.
  cbv zeta. unfold finish.
  pose proof (load_checkpoint_cases W (p_trainer st) (p_args st)) as Hload.
  cbv zeta in Hload.
  destruct (resume_state_from_dir W (p_trainer st) (Path (Argparse.checkpoint (p_args st))))
    as [[]|e].
  - rewrite Hload. unfold evaluate, cleanup, loaded_trace, evaluation_trace.
    destruct (evaluate_all W (p_trainer st) _) as [ms|e]; [|reflexivity].
    cbn [bind ext print fst snd app]. rewrite for_each_print.
    destruct (is_initialized W) as [[]|e]; [|reflexivity|reflexivity].
    destruct (destroy_process_group W) as [[]|e]; reflexivity.
  - destruct (is_Exception e); rewrite Hload; reflexivity.
Qed.

(** Every event of the rest of [main] is a message or one of five calls,
    made on the trainer, the checkpoint directory and the evaluation
    arguments that [prepare] left. *)
Lemma finish_Forall st (P : event L -> Prop) :
  (forall s, P (Print s)) ->
  (forall o, P (Called (CResumeStateFromDir (p_trainer st)
                          (Path (Argparse.checkpoint (p_args st)))) o)) ->
  (forall o, P (Called (CEvaluateAll (p_trainer st)
                          (evaluate_args (p_eval_losses st) (p_test_loaders st))) o)) ->
  (forall o, P (Called CIsInitialized o)) ->
  (forall o, P (Called CDestroyProcessGroup o)) ->
  (forall o, P (Called (CSysExit 1) o)) ->
  Forall P (fst (finish W st)).
Proof.
  intros Hprint Hres Hev Hinit Hdes Hexit. unfold finish.
  apply Forall_bind.
  - pose proof (load_checkpoint_cases W (p_trainer st) (p_args st)) as H.
    cbv zeta in H.
    destruct (resume_state_from_dir W (p_trainer st) (Path (Argparse.checkpoint (p_args st))))
      as [[]|e]; [|destruct (is_Exception e)]; rewrite H; simpl;
      repeat constructor; auto.
  - intros _ _ _. apply Forall_bind.
    + unfold evaluate. apply Forall_bind; [repeat constructor; auto|].
      intros _ _ _. apply Forall_bind; [apply Forall_ext; auto|].
      intros _ ms _. apply Forall_bind; [repeat constructor; auto|].
      intros _ _ _. apply Forall_for_each. intros kv. repeat constructor. auto.
    + intros _ _ _. unfold cleanup.
      apply Forall_bind; [apply Forall_ext; auto|].
      intros _ [] _; [apply Forall_ext; auto|constructor].
Qed.

Lemma finish_events st : Forall (@finish_event L) (fst (finish W st)).
Proof.
  unfold finish.
  apply Forall_bind.
  - pose proof (load_checkpoint_cases W (p_trainer st) (p_args st)) as H.
    cbv zeta in H.
    destruct (resume_state_from_dir W (p_trainer st) (Path (Argparse.checkpoint (p_args st))))
      as [[]|e]; [|destruct (is_Exception e)]; rewrite H; simpl;
      repeat constructor; discriminate.
  - intros _ _ _. apply Forall_bind.
    + unfold evaluate. apply Forall_bind; [repeat constructor; discriminate|].
      intros _ _ _. apply Forall_bind; [apply Forall_ext; intros ?; exact I|].
      intros _ ms _. apply Forall_bind; [repeat constructor; discriminate|].
      intros _ _ _. apply Forall_for_each. intros kv.
      repeat constructor. apply metric_line_not_header.
    + intros _ _ _. unfold cleanup.
      apply Forall_bind; [apply Forall_ext; intros ?; exact I|].
      intros _ [] _; [apply Forall_ext; intros ?; exact I|constructor].
Qed.

(** Walking through [prepare] after an event: [walk] takes one statement,
    [elsewhere] shows that the event is none of that statement's. *)
Ltac elsewhere H :=
  first
    [ apply in_ext_inv in H; destruct H as [[H _]|(? & H & _)]; discriminate H
    | exfalso; revert H; apply not_block_event;
      [ first [ apply manual_config_parsing_events
              | apply dataprocessor_setup_events
              | apply distributed_data_parallel_setup_events ]
      | reflexivity ]
    | match type of H with context [if ?b then _ else _] => destruct b end;
      simpl in H; repeat (destruct H as [H|H]; [discriminate H|]); contradiction H
    | simpl in H; repeat (destruct H as [H|H]; [discriminate H|]); contradiction H ].

Ltac walk H :=
  let t := fresh "t" in let x := fresh "x" in let Hm := fresh "Hm" in
  apply in_bind_inv in H; destruct H as [H | (t & x & Hm & H)];
  [ | try (apply ext_Ok_inv in Hm; destruct Hm as [Hm _]);
      repeat match type of H with
             | context [let (_, _) := ?y in _] => is_var y; destruct y
             end;
      cbv beta zeta in H ].

(** What the data-processor block did when it returned. *)
Lemma dataprocessor_setup_inv config model device dp t dp' :
  dataprocessor_setup W config model device dp = (t, Ok dp') ->
  exists p,
    processor_to W p device = Ok dp' /\
    In (Called (CProcessorTo p device) None) t /\
    if (levels (patching config) >? 0)%Z then
      MGPatchingDataProcessor W
        {| mg_model := model;
           mg_in_normalizer := in_normalizer W dp;
           mg_out_normalizer := out_normalizer W dp;
           mg_padding_fraction := padding (patching config);
           mg_stitching := stitching (patching config);
           mg_levels := levels (patching config);
           mg_use_distributed := use_distributed (distributed config) |} = Ok p
    else p = dp /\ t = [Called (CProcessorTo dp device) None].
Proof.
  unfold dataprocessor_setup.
  destruct (levels (patching config) >? 0)%Z.
  - destruct (MGPatchingDataProcessor W _) as [p|e] eqn:Hmg; [|discriminate].
    simpl. destruct (processor_to W p device) as [q|e] eqn:Hto; [|discriminate].
    simpl. intros H. inversion H; subst. exists p. simpl. auto.
  - simpl. destruct (processor_to W dp device) as [q|e] eqn:Hto; [|discriminate].
    simpl. intros H. inversion H; subst. exists dp. simpl. auto.
Qed.

(** The [Trainer] call, whether it returns or raises, is the last event of
    [prepare] and is made with the values that the calls before it
    returned. *)
Lemma trainer_event_inv prog cli a r :
  In (Called (CTrainer a) r) (fst (prepare W prog cli)) ->
  exists pre t_dp mid raw cfg0 device is_logger train tests dp model0 model dp',
    fst (prepare W prog cli) = pre ++ t_dp ++ mid ++ [Called (CTrainer a) r] /\
    In (Called (CSetup cfg0) None) pre /\
    to_dict W raw = Ok cfg0 /\
    setup W cfg0 = Ok (device, is_logger) /\
    let config := set_verbose cfg0 (verbose cfg0 && is_logger) in
    load_navier_stokes_pt W (load_args config (Expanduser (Path (folder (data config)))))
      = Ok (train, tests, dp) /\
    get_model W config = Ok model0 /\
    model_to W model0 device = Ok model /\
    dataprocessor_setup W config model device dp = (t_dp, Ok dp') /\
    a = trainer_args config model dp' device.
Proof.
  intros H. pose proof H as H0. unfold prepare in H.
  do 21 (walk H; [elsewhere H|]).
  walk H; [|elsewhere H].
  assert (Ha : a = trainer_args (set_verbose x6 (verbose x6 && b)) x10 x11 d).
  { apply in_ext_inv in H. destruct H as [[H _]|(? & H & _)]; now inversion H. }
  apply in_ext_single in H.
  cbv zeta.
  eexists _, t14, _, x5, x6, d, b, _, _, _, _, x10, x11.
  split; [|split; [|repeat split; eassumption]].
  - unfold prepare.
    repeat (erewrite fst_bind_Ok
              by (first [apply ext_Ok; eassumption | eassumption | reflexivity]);
            cbv beta iota zeta).
    rewrite fst_bind_ext_ret, H.
    do 15 (eapply app_peel). eapply app_here.
    do 5 (eapply app_peel). exact (eq_refl : _ = [] ++ _).
  - do 9 (apply in_or_app; right). apply in_or_app. left. now left.
Qed.



Ltac unbind H :=
  let t1 := fresh "t" in let x := fresh "x" in let t2 := fresh "t" in
  let Hm := fresh "Hm" in
  apply bind_Ok_inv in H; destruct H as (t1 & x & t2 & Hm & H & ->);
  try (apply ext_Ok_inv in Hm; destruct Hm as [Hm ->]);
  repeat match type of H with
         | context [let (_, _) := ?y in _] => is_var y; destruct y
         end;
  cbv beta zeta in H.

(** What [prepare] hands on when it returns: the parsed arguments, the test
    loaders as the distributed setup left them, the two losses, and the
    trainer. *)
Lemma prepare_inv prog cli t0 st :
  prepare W prog cli = (t0, Ok st) ->
  exists unknown cfg0 device is_logger train tests dp train' t_dist h1 l2,
    Argparse.parse_known_args cli = Ok (p_args st, unknown) /\
    In (Called (CSetup cfg0) None) t0 /\
    setup W cfg0 = Ok (device, is_logger) /\
    let config := set_verbose cfg0 (verbose cfg0 && is_logger) in
    load_navier_stokes_pt W (load_args config (Expanduser (Path (folder (data config)))))
      = Ok (train, tests, dp) /\
    distributed_data_parallel_setup W config train tests
      = (t_dist, Ok (train', p_test_loaders st)) /\
    LpLoss W 2 2 = Ok l2 /\
    H1Loss W 2 = Ok h1 /\
    p_eval_losses st = [("h1", h1); ("l2", l2)].
Proof.
  unfold prepare. intros H.
  do 22 unbind H.
  inversion H; subst; clear H. cbn [p_args p_test_loaders p_eval_losses].
  cbv zeta. exists l, x6, d, b, l0, l1, p0, l2, t4, x15, x14.
  repeat split; try assumption.
  do 9 (apply in_or_app; right). apply in_or_app. left. now left.
Qed.

(** An event of [main] is one of [prepare] or one of the rest. *)
Lemma main_event_inv prog cli ev :
  In ev (fst (main W prog cli)) ->
  In ev (fst (prepare W prog cli)) \/
  exists t0 st, prepare W prog cli = (t0, Ok st) /\ In ev (fst (finish W st)).
Proof. unfold main. intros H. apply in_bind_inv in H. exact H. Qed.

Lemma not_finish_event st ev :
  ~ finish_event ev -> ~ In ev (fst (finish W st)).
Proof.
  intros Hev Hin. pose proof (finish_events st) as H.
  rewrite Forall_forall in H. exact (Hev (H ev Hin)).
Qed.

End Events.

(** ** The claims *)

Lemma last_loud {X} (P : X -> Prop) (pre post pre' : list X) (x y : X) :
  pre ++ x :: post = pre' ++ [y] -> ~ P x -> Forall P pre' ->
  pre = pre' /\ post = [] /\ x = y.
Proof.
  revert pre'. induction pre as [|a pre IH]; intros pre' E Hx Hpre'.
  - destruct pre' as [|b pre']; simpl in E.
    + inversion E; auto.
    + inversion E; subst. inversion Hpre'; contradiction.
  - destruct pre' as [|b pre']; simpl in E.
    + inversion E as [[Ea Eb]]. destruct pre; discriminate.
    + inversion E; subst. inversion Hpre'; subst.
      destruct (IH pre' H1 Hx H3) as (-> & -> & ->). auto.
Qed.

Arguments last_loud {X} P {pre post pre' x y} _ _ _.

Lemma in_split_loud {X} (P : X -> Prop) (pre post : list X) (x : X) :
  Forall P (pre ++ x :: post) -> P x.
Proof.
  intros H. apply Forall_app in H as [_ H]. now inversion H.
Qed.

Arguments in_split_loud {X} P {pre post x} _.

(** C5. The only exception handler of the script is the one around the
    checkpoint restoration: whenever any other call made by [main] raises
    (command-line and configuration parsing, data loading, model
    construction, data-processor setup, evaluation, teardown), that call is
    the last thing the run does and its exception is the result of [main]. *)
Theorem exceptions_propagate (L : Lib) (W : World L) (prog : string) (cli : list string)
        (pre post : list (event L)) (c : call L) (e : pyexc) :
  trace (main W prog cli) = pre ++ Called c (Some e) :: post ->
  in_try c = false ->
  post = [] /\ result (main W prog cli) = Raise e.
Proof.
  unfold trace, result. intros E Hc.
  pose proof (propagating_main W prog cli) as H. unfold propagating in H.
  assert (Hloud : ~ quiet (Called c (Some e))) by (simpl; congruence).
  destruct (snd (main W prog cli)) as [[]|e'].
  - rewrite E in H. now apply in_split_loud in H.
  - destruct H as (pre' & c' & E' & Hpre'). rewrite E in E'.
    destruct (last_loud _ E' Hloud Hpre') as (_ & -> & Ev).
    inversion Ev; auto.
Qed.

Lemma exceptions_propagate_witness :
  let W := Demo.world Demo.bad_toml in
  let cli := ["--config"; "c.toml"] in
  let e := Exception "TOMLDecodeError" "Invalid statement (at line 1, column 1)" in
  let pre := [Called CSysPathInsert None; Called (CImport "argparse") None;
              Called (CImport "tomllib") None; Called (CParseKnownArgs cli) None] in
  trace (main W Demo.script cli) = pre ++ Called (CLoadToml "c.toml") (Some e) :: [] /\
  result (main W Demo.script cli) = Raise e.
Proof.
  intros W cli e pre.
  assert (E : trace (main W Demo.script cli)
              = pre ++ Called (CLoadToml "c.toml") (Some e) :: []) by reflexivity.
  split; [exact E|].
  exact (proj2 (exceptions_propagate W Demo.script cli pre [] (CLoadToml "c.toml") e
                  E eq_refl)).
Defined.

(** What [main] does once [prepare] has returned. *)
Lemma main_after_prepare (L : Lib) (W : World L) prog cli t0 st :
  prepare W prog cli = (t0, Ok st) ->
  main W prog cli = (t0 ++ fst (finish W st), snd (finish W st)).
Proof. intros H. unfold main. now rewrite (bind_Ok _ H). Qed.

Lemma main_prepare_failed (L : Lib) (W : World L) prog cli t0 e :
  prepare W prog cli = (t0, Raise e) -> main W prog cli = (t0, Raise e).
Proof. intros H. unfold main. now rewrite H. Qed.

(** The evaluation begins with its message and the library call. *)
Lemma evaluate_starts (L : Lib) (W : World L) trainer losses tests :
  exists r rest,
    fst (evaluate W trainer losses tests) =
    [Print "Starting evaluation...";
     Called (CEvaluateAll trainer (evaluate_args losses tests)) r] ++ rest.
Proof.
  unfold evaluate.
  destruct (evaluate_all W trainer (evaluate_args losses tests)) as [ms|e]; simpl.
  - rewrite for_each_print. simpl. now eexists _, _.
  - now eexists _, _.
Qed.

(** C1 (as amended).  Once the run has reached the checkpoint: if
    [trainer.resume_state_from_dir] raises an instance of [Exception], the
    script prints the exception and the hint naming
    ['best_model_state_dict.pt'] and ['model_state_dict.pt'], and exits
    with status 1, doing nothing else; if the call returns, the script
    prints the success message and goes on to the evaluation.  An exception
    outside [Exception] ([KeyboardInterrupt], [SystemExit]) is not caught. *)
Theorem checkpoint_failure_exits_1 (L : Lib) (W : World L) (prog : string)
        (cli : list string) (t0 : list (event L)) (st : Prepared L) :
  prepare W prog cli = (t0, Ok st) ->
  let trainer := p_trainer st in
  let dir := Path (Argparse.checkpoint (p_args st)) in
  let loading := Print ("Loading checkpoint from " ++ str_path W dir ++ "...")%string in
  match resume_state_from_dir W trainer dir with
  | Raise e =>
      if is_Exception e then
        main W prog cli =
        (t0 ++ [loading;
                Called (CResumeStateFromDir trainer dir) (Some e);
                Print ("Error loading checkpoint: " ++ exc_str e)%string;
                Print hint_message;
                Called (CSysExit 1) (Some (SystemExit 1))],
         Raise (SystemExit 1))
      else
        main W prog cli =
        (t0 ++ [loading; Called (CResumeStateFromDir trainer dir) (Some e)], Raise e)
  | Ok _ =>
      exists r rest,
        trace (main W prog cli) =
        t0 ++ [loading;
               Called (CResumeStateFromDir trainer dir) None;
               Print "Checkpoint loaded successfully.";
               Print "Starting evaluation...";
               Called (CEvaluateAll trainer
                         (evaluate_args (p_eval_losses st) (p_test_loaders st))) r]
           ++ rest
  end
  /\ String.index 0 "'best_model_state_dict.pt'" hint_message <> None
  /\ String.index 0 "'model_state_dict.pt'" hint_message <> None.
Proof.
  intros Hprep trainer dir loading.
  split; [|split; discriminate].
  rewrite (main_after_prepare _ _ _ Hprep). unfold finish, trace.
  pose proof (load_checkpoint_cases W (p_trainer st) (p_args st)) as Hload.
  cbv zeta in Hload. fold trainer dir loading in Hload. fold trainer.
  destruct (resume_state_from_dir W trainer dir) as [[]|e].
  - rewrite Hload.
    destruct (evaluate_starts W trainer (p_eval_losses st) (p_test_loaders st))
      as (r & rest & Hev).
    destruct (bind_trace_prefix
                (evaluate W trainer (p_eval_losses st) (p_test_loaders st))
                (fun _ => cleanup W)) as [rest' Hrest].
    cbn [bind].
    match goal with |- context [bind ?m ?k] => destruct (bind m k) as [t r'] end.
    cbn [fst] in *. rewrite Hrest, Hev.
    exists r, (rest ++ rest'). now rewrite <- !app_assoc.
  - destruct (is_Exception e); rewrite Hload; reflexivity.
Qed.

Lemma checkpoint_failure_exits_1_witness :
  let W := Demo.world Demo.missing_checkpoint in
  let cli := ["--checkpoint"; "runs/ns"] in
  exists t0 st,
    prepare W Demo.script cli = (t0, Ok st) /\
    main W Demo.script cli =
    (t0 ++ [Print "Loading checkpoint from runs/ns...";
            Called (CResumeStateFromDir (p_trainer st) (Path "runs/ns"))
                   (Some (Exception "FileNotFoundError" "no checkpoint found"));
            Print "Error loading checkpoint: no checkpoint found";
            Print hint_message;
            Called (CSysExit 1) (Some (SystemExit 1))],
     Raise (SystemExit 1)).
Proof.
  intros W cli.
  destruct (prepare W Demo.script cli) as [t0 [st|e]] eqn:Hprep;
    [|vm_compute in Hprep; discriminate].
  exists t0, st. split; [reflexivity|].
  assert (Hargs : p_args st = {| Argparse.config := None;
                                 Argparse.checkpoint := "runs/ns" |}).
  { vm_compute in Hprep. now inversion Hprep. }
  pose proof (proj1 (checkpoint_failure_exits_1 W Demo.script cli Hprep)) as H.
  rewrite Hargs in H. exact H.
Defined.

(** C1, as stated, fails: the interrupt raised while the checkpoint loads is
    not caught; no hint is printed and the run does not end in [sys.exit(1)]. *)
Lemma checkpoint_failure_counterexample :
  let W := Demo.world Demo.interrupted in
  let m := main W Demo.script [] in
  In (Called (L:=Demo.lib) (CResumeStateFromDir (tt : TrainerObj Demo.lib) (Path "./ckpt"))
             (Some KeyboardInterrupt)) (trace m) /\
  result m = Raise KeyboardInterrupt /\
  result m <> Raise (SystemExit 1) /\
  ~ In (Print hint_message) (trace m).
Proof.
  vm_compute. repeat split.
  - repeat (try (left; reflexivity); right).
  - discriminate.
  - intros H. repeat (destruct H as [H|H]; [discriminate H|]). exact H.
Qed.






Lemma demo_loaders_constructible (sc : Demo.Scenario) :
  loaders_constructible (Demo.world sc).
Proof.
  split; [|split].
  - now exists 0%Z.
  - intros db rank. now eexists.
  - intros a. now eexists.
Defined.



(** The [Trainer] is built in [prepare], not after it. *)
Lemma trainer_event_in_prepare (L : Lib) (W : World L) prog cli a r :
  In (Called (CTrainer a) r) (trace (main W prog cli)) ->
  In (Called (CTrainer a) r) (fst (prepare W prog cli)).
Proof.
  intros H. apply main_event_inv in H as [H|(t0 & st & _ & H)]; [exact H|].
  exfalso. revert H. apply not_finish_event. simpl. auto.
Qed.

Lemma prepare_trace_prefix (L : Lib) (W : World L) prog cli :
  exists rest, trace (main W prog cli) = fst (prepare W prog cli) ++ rest.
Proof. unfold main, trace. apply bind_trace_prefix. Qed.

(** C9. Whenever the script constructs the [Trainer], it passes
    [wandb_log=False], whatever the configuration says under [wandb]. *)
Theorem trainer_wandb_log_off (L : Lib) (W : World L) (prog : string)
        (cli : list string) (a : TrainerArgs L) (r : option pyexc) :
  In (Called (CTrainer a) r) (trace (main W prog cli)) ->
  tr_wandb_log a = false.
Proof.
  intros H. apply trainer_event_in_prepare in H.
  apply trainer_event_inv in H.
  destruct H as (pre & t_dp & mid & raw & cfg0 & device & is_logger & train & tests
                 & dp & model0 & model & dp' & _ & _ & _ & _ & H).
  cbv zeta in H. destruct H as (_ & _ & _ & _ & ->). reflexivity.
Qed.

Lemma trainer_wandb_log_off_witness :
  let a : TrainerArgs Demo.lib :=
    trainer_args (Demo.sc_config Demo.plain) ("fno" : Model Demo.lib)
                 (Demo.OnDevice Demo.LibraryProcessor "cuda:0" : Processor Demo.lib)
                 ("cuda:0" : Device Demo.lib) in
  log_output (wandb (Demo.sc_config Demo.plain)) = PyBool true /\
  tr_wandb_log a = false.
Proof.
  intros a. split; [reflexivity|].
  apply (trainer_wandb_log_off (Demo.world Demo.plain) Demo.script [] a None).
  vm_compute. repeat (first [left; reflexivity | right]).
Defined.



(** C4. The [Trainer] receives the data processor that [.to(device)]
    returned, and that call comes before the [Trainer] call.  What is moved
    to the device is, when [config.patching.levels > 0], the
    [MGPatchingDataProcessor] built from the model, the input and output
    normalizers of the dataset loader's processor and the patching
    configuration, and otherwise the dataset loader's processor itself. *)
Theorem data_processor_patched_then_moved (L : Lib) (W : World L) (prog : string)
        (cli : list string) (a : TrainerArgs L) (r : option pyexc) :
  In (Called (CTrainer a) r) (trace (main W prog cli)) ->
  exists pre post cfg0 is_logger train tests dp p,
    trace (main W prog cli) = pre ++ Called (CTrainer a) r :: post /\
    In (Called (CSetup cfg0) None) pre /\
    setup W cfg0 = Ok (tr_device a, is_logger) /\
    let config := set_verbose cfg0 (verbose cfg0 && is_logger) in
    load_navier_stokes_pt W (load_args config (Expanduser (Path (folder (data config)))))
      = Ok (train, tests, dp) /\
    (if (levels (patching cfg0) >? 0)%Z then
       MGPatchingDataProcessor W
         {| mg_model := tr_model a;
            mg_in_normalizer := in_normalizer W dp;
            mg_out_normalizer := out_normalizer W dp;
            mg_padding_fraction := padding (patching cfg0);
            mg_stitching := stitching (patching cfg0);
            mg_levels := levels (patching cfg0);
            mg_use_distributed := use_distributed (distributed cfg0) |} = Ok p
     else p = dp) /\
    In (Called (CProcessorTo p (tr_device a)) None) pre /\
    processor_to W p (tr_device a) = Ok (tr_data_processor a).
Proof.
  intros H. apply trainer_event_in_prepare in H.
  apply trainer_event_inv in H.
  destruct H as (pre & t_dp & mid & raw & cfg0 & device & is_logger & train & tests
                 & dp & model0 & model & dp' & Htrace & Hin & _ & Hsetup & H).
  cbv zeta in H. destruct H as (Hload & _ & _ & Hdp & ->).
  destruct (prepare_trace_prefix W prog cli) as [rest Hrest].
  destruct (dataprocessor_setup_inv W _ _ _ _ Hdp) as (p & Hto & Hinp & Hp).
  exists (pre ++ t_dp ++ mid), rest, cfg0, is_logger, train, tests, dp, p.
  cbv zeta. cbn [tr_device tr_model tr_data_processor trainer_args].
  split; [|split; [|split; [|split; [|split; [|split]]]]].
  - rewrite Hrest, Htrace. now rewrite <- !app_assoc.
  - apply in_or_app. now left.
  - exact Hsetup.
  - exact Hload.
  - change (patching (set_verbose cfg0 (verbose cfg0 && is_logger)))
      with (patching cfg0) in Hp.
    change (distributed (set_verbose cfg0 (verbose cfg0 && is_logger)))
      with (distributed cfg0) in Hp.
    destruct (levels (patching cfg0) >? 0)%Z; [exact Hp|exact (proj1 Hp)].
  - apply in_or_app. right. apply in_or_app. now left.
  - exact Hto.
Qed.

Lemma data_processor_patched_then_moved_witness :
  let W := Demo.world Demo.worker in
  let a : TrainerArgs Demo.lib :=
    trainer_args (set_verbose (Demo.sc_config Demo.worker) false)
                 ("fno" : Model Demo.lib)
                 (Demo.OnDevice (Demo.MGPatching "fno" "in_normalizer" "out_normalizer" 1)
                                "cuda:0" : Processor Demo.lib)
                 ("cuda:0" : Device Demo.lib) in
  exists pre post cfg0 is_logger train tests dp p,
    trace (main W Demo.script []) = pre ++ Called (CTrainer a) None :: post /\
    In (Called (CSetup cfg0) None) pre /\
    setup W cfg0 = Ok (tr_device a, is_logger) /\
    let config := set_verbose cfg0 (verbose cfg0 && is_logger) in
    load_navier_stokes_pt W (load_args config (Expanduser (Path (folder (data config)))))
      = Ok (train, tests, dp) /\
    (if (levels (patching cfg0) >? 0)%Z then
       MGPatchingDataProcessor W
         {| mg_model := tr_model a;
            mg_in_normalizer := in_normalizer W dp;
            mg_out_normalizer := out_normalizer W dp;
            mg_padding_fraction := padding (patching cfg0);
            mg_stitching := stitching (patching cfg0);
            mg_levels := levels (patching cfg0);
            mg_use_distributed := use_distributed (distributed cfg0) |} = Ok p
     else p = dp) /\
    In (Called (CProcessorTo p (tr_device a)) None) pre /\
    processor_to W p (tr_device a) = Ok (tr_data_processor a).
Proof.
  intros W a.
  apply (data_processor_patched_then_moved W Demo.script [] a None).
  vm_compute. repeat (first [left; reflexivity | right]).
Defined.

(** C8. When no argument of the command line is read as the [--checkpoint]
    option (in full, abbreviated, or with [=value]), a successful parse
    leaves [args.checkpoint] at its default ["./ckpt"], and that is the
    directory every run of [main] hands to [resume_state_from_dir]. *)
Theorem checkpoint_defaults_to_ckpt (cli : list string) :
  (forall a, In a cli -> Argparse.selects_checkpoint a = false) ->
  (forall ns unknown,
      Argparse.parse_known_args cli = Ok (ns, unknown) ->
      Argparse.checkpoint ns = "./ckpt")
  /\
  (forall (L : Lib) (W : World L) prog t dir r,
      In (Called (CResumeStateFromDir t dir) r) (trace (main W prog cli)) ->
      dir = Path "./ckpt").
Proof.
  intros Hcli.
  assert (Hparse : forall ns unknown,
             Argparse.parse_known_args cli = Ok (ns, unknown) ->
             Argparse.checkpoint ns = "./ckpt").
  { intros ns unknown H. unfold Argparse.parse_known_args in H.
    destruct (Argparse.classify cli) as [ps|] eqn:Hps; [|discriminate].
    apply consume_keeps_checkpoint in H; [exact H| |discriminate].
    intros s o e Hin.
    destruct (classify_options _ Hps _ _ _ _ Hin) as [Hs Hopt].
    specialize (Hcli s Hs). unfold Argparse.selects_checkpoint in Hcli.
    rewrite Hopt in Hcli. discriminate Hcli. }
  split; [exact Hparse|].
  intros L W prog t dir r H.
  apply main_event_inv in H as [H|(t0 & st & Hprep & H)].
  - pose proof (prepare_events W prog cli) as Hall.
    rewrite Forall_forall in Hall. specialize (Hall _ H). discriminate Hall.
  - destruct (prepare_inv W _ _ Hprep)
      as (unknown & _ & _ & _ & _ & _ & _ & _ & _ & _ & _ & Hargs & _).
    pose proof (finish_Forall W st
                  (fun ev => forall t dir r, ev = Called (CResumeStateFromDir t dir) r ->
                                             dir = Path (Argparse.checkpoint (p_args st))))
      as Hfin.
    rewrite Forall_forall in Hfin.
    rewrite (Hfin ltac:(discriminate) ltac:(intros; congruence) ltac:(discriminate)
                  ltac:(discriminate) ltac:(discriminate) ltac:(discriminate)
                  _ H t dir r eq_refl).
    now rewrite (Hparse _ _ Hargs).
Qed.

Lemma checkpoint_defaults_to_ckpt_witness :
  exists ns unknown,
    Argparse.parse_known_args ["--config"; "c.toml"; "--opt.n_epochs"; "1"]
    = Ok (ns, unknown) /\
    Argparse.checkpoint ns = "./ckpt".
Proof.
  eexists _, _. split; [reflexivity|].
  refine (proj1 (checkpoint_defaults_to_ckpt
                   ["--config"; "c.toml"; "--opt.n_epochs"; "1"] _) _ _ eq_refl).
  intros a [<-|[<-|[<-|[<-|[]]]]]; reflexivity.
Defined.

Lemma early_not_destroy (L : Lib) (t : list (event L)) :
  Forall (fun ev => late_call ev = false) t ->
  Forall (fun ev => is_destroy ev = false) t.
Proof.
  apply Forall_impl. intros ev. destruct ev as [s|c|c o]; simpl; try reflexivity.
  destruct c; simpl; try reflexivity; discriminate.
Qed.

Lemma done_not_destroy (L : Lib) (W : World L) trainer args losses tests metrics :
  Forall (fun ev => is_destroy ev = false)
         (loaded_trace W trainer args ++ evaluation_trace W trainer losses tests metrics).
Proof.
  unfold loaded_trace, evaluation_trace.
  repeat first [ apply Forall_cons; [reflexivity|] | apply Forall_app; split
               | apply Forall_nil ].
  apply Forall_map. apply Forall_forall. reflexivity.
Qed.

Lemma done_no_failed_resume (L : Lib) (W : World L) trainer args losses tests metrics :
  Forall (fun ev => forall t dir e, ev <> Called (CResumeStateFromDir t dir) (Some e))
         (loaded_trace W trainer args ++ evaluation_trace W trainer losses tests metrics).
Proof.
  unfold loaded_trace, evaluation_trace.
  repeat first [ apply Forall_cons; [discriminate|] | apply Forall_app; split
               | apply Forall_nil ].
  apply Forall_map. apply Forall_forall. discriminate.
Qed.

Ltac all_of :=
  repeat first
    [ assumption
    | apply Forall_nil
    | apply Forall_app; split
    | apply Forall_cons; [first [reflexivity | discriminate]|] ].

(** C6. A [destroy_process_group] call is the last event of the run; it
    comes right after [dist.is_initialized()] returned [True], which comes
    after the evaluation returned and its metrics were printed.  A run in
    which the checkpoint failed to load has no such call.  And a run that
    gets through the evaluation with a process group initialized ends with
    that call. *)
Theorem teardown_is_last (L : Lib) (W : World L) (prog : string) (cli : list string) :
  (forall pre o post,
      trace (main W prog cli) = pre ++ Called CDestroyProcessGroup o :: post ->
      post = [] /\
      is_initialized W = Ok true /\
      exists t0 st metrics,
        prepare W prog cli = (t0, Ok st) /\
        evaluate_all W (p_trainer st)
          (evaluate_args (p_eval_losses st) (p_test_loaders st)) = Ok metrics /\
        pre = t0 ++ (loaded_trace W (p_trainer st) (p_args st)
                     ++ evaluation_trace W (p_trainer st) (p_eval_losses st)
                          (p_test_loaders st) metrics)
                 ++ [Called CIsInitialized None])
  /\
  (forall t dir e,
      In (Called (CResumeStateFromDir t dir) (Some e)) (trace (main W prog cli)) ->
      forall o, ~ In (Called CDestroyProcessGroup o) (trace (main W prog cli)))
  /\
  (forall t0 st metrics,
      prepare W prog cli = (t0, Ok st) ->
      resume_state_from_dir W (p_trainer st) (Path (Argparse.checkpoint (p_args st)))
      = Ok tt ->
      evaluate_all W (p_trainer st)
        (evaluate_args (p_eval_losses st) (p_test_loaders st)) = Ok metrics ->
      is_initialized W = Ok true ->
      exists o,
        trace (main W prog cli) =
        t0 ++ (loaded_trace W (p_trainer st) (p_args st)
               ++ evaluation_trace W (p_trainer st) (p_eval_losses st)
                    (p_test_loaders st) metrics)
           ++ [Called CIsInitialized None; Called CDestroyProcessGroup o]).
Proof.
  pose proof (prepare_events W prog cli) as Hearly.
  pose proof (early_not_destroy Hearly) as Hnd.
  destruct (prepare W prog cli) as [t0 [st|e0]] eqn:Hprep.
  2:{ rewrite (main_prepare_failed _ _ _ Hprep). unfold trace. cbn [fst].
      split; [|split].
      - intros pre o post E. rewrite E in Hnd.
        apply (in_split_loud (fun ev => is_destroy ev = false)) in Hnd. discriminate Hnd.
      - intros t dir e Hin. rewrite Forall_forall in Hearly.
        specialize (Hearly _ Hin). discriminate Hearly.
      - intros ? ? ? H. discriminate H. }
  rewrite (main_after_prepare _ _ _ Hprep). unfold trace. cbn [fst] in *.
  pose proof (finish_cases W st) as Hfin. cbv zeta in Hfin.
  set (trainer := p_trainer st) in *.
  set (dir := Path (Argparse.checkpoint (p_args st))) in *.
  set (eargs := evaluate_args (p_eval_losses st) (p_test_loaders st)) in *.
  pose proof (done_not_destroy W trainer (p_args st) (p_eval_losses st) (p_test_loaders st))
    as Hdone.
  pose proof (done_no_failed_resume W trainer (p_args st) (p_eval_losses st)
                (p_test_loaders st)) as Hdone'.
  assert (Hnr : Forall (fun ev => forall t dir e,
                            ev <> Called (CResumeStateFromDir t dir) (Some e)) t0).
  { revert Hearly. apply Forall_impl. intros ev Hev t' d' e' ->. discriminate Hev. }
  destruct (resume_state_from_dir W trainer dir) as [[]|e] eqn:Hres.
  - destruct (evaluate_all W trainer eargs) as [ms|e] eqn:Heval.
    + specialize (Hdone ms). specialize (Hdone' ms).
      destruct (is_initialized W) as [[]|e].
      * assert (Hpre : Forall (fun ev => is_destroy ev = false)
                         (t0 ++ (loaded_trace W trainer (p_args st)
                                 ++ evaluation_trace W trainer (p_eval_losses st)
                                      (p_test_loaders st) ms)
                             ++ [Called CIsInitialized None])).
        { all_of. }
        assert (Hshape : exists o,
                   fst (finish W st) =
                   (loaded_trace W trainer (p_args st)
                    ++ evaluation_trace W trainer (p_eval_losses st)
                         (p_test_loaders st) ms)
                   ++ [Called CIsInitialized None; Called CDestroyProcessGroup o]).
        { rewrite Hfin. destruct (destroy_process_group W) as [[]|e];
            eexists; reflexivity. }
        destruct Hshape as [o' Hshape]. rewrite Hshape.
        split; [|split].
        -- intros pre o post E.
           assert (E' : pre ++ Called CDestroyProcessGroup o :: post =
                        (t0 ++ (loaded_trace W trainer (p_args st)
                                ++ evaluation_trace W trainer (p_eval_losses st)
                                     (p_test_loaders st) ms)
                            ++ [Called CIsInitialized None])
                        ++ [Called CDestroyProcessGroup o']).
           { rewrite <- E. rewrite <- !app_assoc. reflexivity. }
           assert (Hloud : ~ is_destroy (Called (L:=L) CDestroyProcessGroup o) = false)
             by discriminate.
           destruct (last_loud _ E' Hloud Hpre) as (-> & -> & _).
           split; [reflexivity|]. split; [reflexivity|].
           exists t0, st, ms. repeat split. exact Heval.
        -- intros t dir' e Hin o Hd. clear Hd.
           assert (Hall : Forall (fun ev => forall t dir e,
                                      ev <> Called (CResumeStateFromDir t dir) (Some e))
                                 (t0 ++ (loaded_trace W trainer (p_args st)
                                         ++ evaluation_trace W trainer (p_eval_losses st)
                                              (p_test_loaders st) ms)
                                     ++ [Called CIsInitialized None;
                                         Called CDestroyProcessGroup o'])).
           { all_of. }
           rewrite Forall_forall in Hall. exact (Hall _ Hin _ _ _ eq_refl).
        -- intros t0' st' ms' E _ Hms _. inversion E; subst t0' st'.
           fold trainer eargs in Hms. rewrite Heval in Hms. inversion Hms; subst ms'.
           exists o'. reflexivity.
      * rewrite Hfin. cbn [fst]. split; [|split].
        -- intros pre o post E. exfalso.
           assert (Hall : Forall (fun ev => is_destroy ev = false)
                            (t0 ++ (loaded_trace W trainer (p_args st)
                                    ++ evaluation_trace W trainer (p_eval_losses st)
                                         (p_test_loaders st) ms)
                                ++ [Called CIsInitialized None])).
           { all_of. }
           rewrite E in Hall.
           apply (in_split_loud (fun ev => is_destroy ev = false)) in Hall.
           discriminate Hall.
        -- intros t dir' e Hin. exfalso.
           assert (Hall : Forall (fun ev => forall t dir e,
                                      ev <> Called (CResumeStateFromDir t dir) (Some e))
                                 (t0 ++ (loaded_trace W trainer (p_args st)
                                         ++ evaluation_trace W trainer (p_eval_losses st)
                                              (p_test_loaders st) ms)
                                     ++ [Called CIsInitialized None])).
           { all_of. }
           rewrite Forall_forall in Hall. exact (Hall _ Hin _ _ _ eq_refl).
        -- intros ? ? ? _ _ _ H. discriminate H.
      * rewrite Hfin. cbn [fst]. split; [|split].
        -- intros pre o post E. exfalso.
           assert (Hall : Forall (fun ev => is_destroy ev = false)
                            (t0 ++ (loaded_trace W trainer (p_args st)
                                    ++ evaluation_trace W trainer (p_eval_losses st)
                                         (p_test_loaders st) ms)
                                ++ [Called CIsInitialized (Some e)])).
           { all_of. }
           rewrite E in Hall.
           apply (in_split_loud (fun ev => is_destroy ev = false)) in Hall.
           discriminate Hall.
        -- intros t dir' e' Hin. exfalso.
           assert (Hall : Forall (fun ev => forall t dir e,
                                      ev <> Called (CResumeStateFromDir t dir) (Some e))
                                 (t0 ++ (loaded_trace W trainer (p_args st)
                                         ++ evaluation_trace W trainer (p_eval_losses st)
                                              (p_test_loaders st) ms)
                                     ++ [Called CIsInitialized (Some e)])).
           { all_of. }
           rewrite Forall_forall in Hall. exact (Hall _ Hin _ _ _ eq_refl).
        -- intros ? ? ? _ _ _ H. discriminate H.
    + rewrite Hfin. cbn [fst]. split; [|split].
      * intros pre o post E. exfalso.
        assert (Hall : Forall (fun ev => is_destroy ev = false)
                         (t0 ++ loaded_trace W trainer (p_args st)
                             ++ [Print "Starting evaluation...";
                                 Called (CEvaluateAll trainer eargs) (Some e)])).
        { unfold loaded_trace. all_of. }
        rewrite E in Hall.
        apply (in_split_loud (fun ev => is_destroy ev = false)) in Hall.
        discriminate Hall.
      * intros t dir' e' Hin. exfalso.
        assert (Hall : Forall (fun ev => forall t dir e,
                                   ev <> Called (CResumeStateFromDir t dir) (Some e))
                              (t0 ++ loaded_trace W trainer (p_args st)
                                  ++ [Print "Starting evaluation...";
                                      Called (CEvaluateAll trainer eargs) (Some e)])).
        { unfold loaded_trace. all_of. }
        rewrite Forall_forall in Hall. exact (Hall _ Hin _ _ _ eq_refl).
      * intros ? ? ms' E _ Hms _. inversion E; subst.
        fold trainer eargs in Hms. rewrite Heval in Hms. discriminate Hms.
  - assert (Hfin' : Forall (fun ev => is_destroy ev = false) (fst (finish W st))).
    { rewrite Hfin. destruct (is_Exception e); cbn [fst]; all_of. }
    split; [|split].
    + intros pre o post E. exfalso.
      assert (Hall : Forall (fun ev => is_destroy ev = false) (t0 ++ fst (finish W st)))
        by (apply Forall_app; split; auto).
      rewrite E in Hall.
      apply (in_split_loud (fun ev => is_destroy ev = false)) in Hall.
      discriminate Hall.
    + intros t dir' e' _ o Hin.
      assert (Hall : Forall (fun ev => is_destroy ev = false) (t0 ++ fst (finish W st)))
        by (apply Forall_app; split; auto).
      rewrite Forall_forall in Hall. specialize (Hall _ Hin). discriminate Hall.
    + intros ? ? ? E H. inversion E; subst. fold trainer dir in H.
      rewrite Hres in H. discriminate H.
Qed.

Lemma teardown_is_last_witness :
  let W := Demo.world Demo.worker in
  exists t0 st o,
    prepare W Demo.script [] = (t0, Ok st) /\
    trace (main W Demo.script []) =
    t0 ++ (loaded_trace W (p_trainer st) (p_args st)
           ++ evaluation_trace W (p_trainer st) (p_eval_losses st)
                (p_test_loaders st) [("64_h1", 3%Z)])
       ++ [Called CIsInitialized None; Called CDestroyProcessGroup o].
Proof.
  intros W.
  destruct (prepare W Demo.script []) as [t0 [st|e]] eqn:Hprep;
    [|vm_compute in Hprep; discriminate].
  destruct (proj2 (proj2 (teardown_is_last W Demo.script [])) t0 st
                  [("64_h1", 3%Z)] Hprep eq_refl eq_refl eq_refl) as [o Ho].
  exists t0, st, o. split; [reflexivity|exact Ho].
Defined.

Lemma filter_none {X} (f : X -> bool) (l : list X) :
  Forall (fun x => f x = false) l -> filter f l = [].
Proof.
  induction 1 as [|x l Hx _ IH]; simpl; [reflexivity|]. now rewrite Hx.
Qed.

Lemma early_not_evaluate (L : Lib) (t : list (event L)) :
  Forall (fun ev => late_call ev = false) t ->
  Forall (fun ev => is_evaluate ev = false) t.
Proof.
  apply Forall_impl. intros ev. destruct ev as [s|c|c o]; simpl; try reflexivity.
  destruct c; simpl; try reflexivity; discriminate.
Qed.

Lemma prints_not_evaluate (L : Lib) {X} (f : X -> string) (xs : list X) :
  Forall (fun ev : event L => is_evaluate ev = false) (map (fun x => Print (f x)) xs).
Proof. apply Forall_map. apply Forall_forall. reflexivity. Qed.

(** C7. Once the checkpoint has loaded, the run calls
    [trainer.evaluate_all] exactly once, with [epoch=0], the test loaders
    that [prepare] left, no evaluation modes, and the dictionary
    [{"h1": H1Loss(d=2), "l2": LpLoss(d=2, p=2)}]; when the call returns,
    the header and then one line ["key: value"] per entry of the returned
    dictionary, in its order, are printed right after it. *)
Theorem evaluation_runs_once (L : Lib) (W : World L) (prog : string)
        (cli : list string) (t0 : list (event L)) (st : Prepared L) :
  prepare W prog cli = (t0, Ok st) ->
  resume_state_from_dir W (p_trainer st) (Path (Argparse.checkpoint (p_args st)))
  = Ok tt ->
  let eargs := {| ev_epoch := 0;
                  ev_eval_losses := p_eval_losses st;
                  ev_test_loaders := p_test_loaders st;
                  ev_eval_modes := [] |} in
  (exists h1 l2,
      H1Loss W 2 = Ok h1 /\ LpLoss W 2 2 = Ok l2 /\
      p_eval_losses st = [("h1", h1); ("l2", l2)])
  /\ (exists o, filter (@is_evaluate L) (trace (main W prog cli))
                = [Called (CEvaluateAll (p_trainer st) eargs) o])
  /\ (forall metrics,
         evaluate_all W (p_trainer st) eargs = Ok metrics ->
         exists rest,
           trace (main W prog cli) =
           t0 ++ loaded_trace W (p_trainer st) (p_args st)
              ++ [Print "Starting evaluation...";
                  Called (CEvaluateAll (p_trainer st) eargs) None;
                  Print results_header]
              ++ map (fun kv => Print (fst kv ++ ": " ++ str_metric W (snd kv))%string)
                     metrics
              ++ rest).
Proof.
  intros Hprep Hres eargs.
  split.
  { destruct (prepare_inv W _ _ Hprep)
      as (unknown & cfg0 & device & is_logger & train & tests & dp & train' & t_dist
          & h1 & l2 & _ & _ & _ & H).
    cbv zeta in H. destruct H as (_ & _ & Hl2 & Hh1 & Hlosses). eauto. }
  pose proof (prepare_events W prog cli) as Hearly. rewrite Hprep in Hearly.
  cbn [fst] in Hearly. apply early_not_evaluate in Hearly.
  rewrite (main_after_prepare _ _ _ Hprep). unfold trace. cbn [fst].
  pose proof (finish_cases W st) as Hfin. cbv zeta in Hfin. rewrite Hres in Hfin.
  change (evaluate_args (p_eval_losses st) (p_test_loaders st)) with eargs in Hfin.
  rewrite filter_app, (filter_none _ Hearly). cbn [app].
  destruct (evaluate_all W (p_trainer st) eargs) as [ms|e] eqn:Heval.
  - split.
    + exists None.
      assert (Hshape : exists tail,
                 Forall (fun ev => is_evaluate ev = false) tail /\
                 fst (finish W st) =
                 loaded_trace W (p_trainer st) (p_args st)
                 ++ [Print "Starting evaluation...";
                     Called (CEvaluateAll (p_trainer st) eargs) None]
                 ++ tail).
      { rewrite Hfin. unfold evaluation_trace.
        change (evaluate_args (p_eval_losses st) (p_test_loaders st)) with eargs.
        destruct (is_initialized W) as [[]|e]; [destruct (destroy_process_group W) as [[]|e]| |];
          cbn [fst]; eexists; (split; [|rewrite <- !app_assoc; reflexivity]);
          cbn [app]; (apply Forall_cons; [reflexivity|]);
          (apply Forall_app; split; [apply prints_not_evaluate|]);
          repeat (apply Forall_cons; [reflexivity|]); apply Forall_nil. }
      destruct Hshape as (tail & Htail & ->).
      rewrite !filter_app, (filter_none _ Htail). reflexivity.
    + intros metrics Hm. inversion Hm; subst ms.
      rewrite Hfin. unfold evaluation_trace.
      change (evaluate_args (p_eval_losses st) (p_test_loaders st)) with eargs.
      destruct (is_initialized W) as [[]|e]; [destruct (destroy_process_group W) as [[]|e]| |];
        cbn [fst]; eexists; rewrite <- !app_assoc; reflexivity.
  - split; [|intros metrics Hm; discriminate Hm].
    exists (Some e). rewrite Hfin. cbn [fst]. rewrite filter_app. reflexivity.
Qed.

Lemma evaluation_runs_once_witness :
  let W := Demo.world Demo.plain in
  exists t0 st o,
    prepare W Demo.script [] = (t0, Ok st) /\
    p_eval_losses st = [("h1", Demo.AH1Loss 2 : Loss Demo.lib);
                        ("l2", Demo.ALpLoss 2 2 : Loss Demo.lib)] /\
    filter (@is_evaluate Demo.lib) (trace (main W Demo.script []))
    = [Called (CEvaluateAll (p_trainer st)
                 {| ev_epoch := 0;
                    ev_eval_losses := p_eval_losses st;
                    ev_test_loaders := p_test_loaders st;
                    ev_eval_modes := [] |}) o].
Proof.
  intros W.
  destruct (prepare W Demo.script []) as [t0 [st|e]] eqn:Hprep;
    [|vm_compute in Hprep; discriminate].
  assert (Hres : resume_state_from_dir W (p_trainer st)
                   (Path (Argparse.checkpoint (p_args st))) = Ok tt) by reflexivity.
  destruct (evaluation_runs_once W Demo.script [] Hprep Hres)
    as ((h1 & l2 & Hh1 & Hl2 & Hlosses) & (o & Ho) & _).
  exists t0, st, o. split; [reflexivity|]. split; [|exact Ho].
  rewrite Hlosses. simpl in Hh1, Hl2. inversion Hh1. inversion Hl2. reflexivity.
Defined.

(** ** More on [flatten_to_args] *)

Section FlattenMore.
Variable leaf : Type.
Variable str : leaf -> string.

Lemma skip_empty_snoc (p : list string) (k : string) :
  skip_empty (p ++ [k]) =
  match skip_empty p with
  | [] => skip_empty [k]
  | q => q ++ [k]
  end.
Proof.
  induction p as [|a p IH]; [now destruct k|].
  destruct a as [|c a]; [exact IH|reflexivity].
Qed.

Lemma skip_empty_head (p : list string) :
  match skip_empty p with
  | [] => True
  | a :: _ => truthy a = true
  end.
Proof.
  induction p as [|a p IH]; [exact I|].
  destruct a as [|c a]; [exact IH|reflexivity].
Qed.

Lemma dotted_truthy (a : string) (q : list string) :
  truthy a = true -> truthy (dotted (a :: q)) = true.
Proof.
  intros Ha. unfold dotted. destruct q as [|b q]; [exact Ha|].
  change (String.concat "." (a :: b :: q))
    with (a ++ "." ++ String.concat "." (b :: q))%string.
  now apply truthy_app_l.
Qed.

(** One more key: the code's [join_key] keeps the key the dotted path
    without its leading empty keys. *)
Lemma join_key_skip_empty (p : list string) (k : string) :
  join_key (dotted (skip_empty p)) k = dotted (skip_empty (p ++ [k])).
Proof.
  rewrite skip_empty_snoc. pose proof (skip_empty_head p) as Hhead.
  destruct (skip_empty p) as [|a q].
  - now destruct k.
  - unfold join_key. rewrite (@dotted_truthy a q Hhead).
    now rewrite (@dotted_snoc (a :: q) k).
Qed.

Lemma flatten_value_skip_empty (v : toml leaf) :
  forall path,
    flatten_value str v (dotted (skip_empty path))
    = flat_map (fun pl => [("--" ++ dotted (skip_empty (fst pl)))%string; str (snd pl)])
               (leaves_value v path).
Proof.
  induction v as [x|d IHd] using toml_nested_ind; intros path.
  - reflexivity.
  - simpl.
    induction IHd as [|[k v'] d' Hv _ IHd']; [reflexivity|].
    rewrite flat_map_app. f_equal; [|exact IHd'].
    simpl in Hv. rewrite join_key_skip_empty. apply Hv.
Qed.

(** X1. On every document, [flatten_to_args] emits for each leaf, in
    iteration order, the option ["--"] followed by the dotted path of the
    leaf without its leading empty keys, then [str] of the leaf. *)
Theorem flatten_to_args_exact (d : list (string * toml leaf)) :
  flatten_to_args str d ""
  = flat_map (fun pl => [("--" ++ dotted (skip_empty (fst pl)))%string; str (snd pl)])
             (leaves d).
Proof. exact (flatten_value_skip_empty (TDict d) []). Qed.

Lemma option_pairs_app : forall a b,
  option_pairs a = true -> option_pairs (a ++ b) = option_pairs b.
Proof.
  fix IH 1. intros [|k [|v a]] b H; simpl in *; try discriminate; [reflexivity|].
  apply andb_true_iff in H as [Hk Ha]. rewrite Hk. simpl. now apply IH.
Qed.

Lemma prefix_dashes (key : string) : String.prefix "--" ("--" ++ key) = true.
Proof. destruct key; reflexivity. Qed.

Lemma flatten_value_shape (v : toml leaf) :
  forall key path,
    option_pairs (flatten_value str v key) = true /\
    List.length (flatten_value str v key) = 2 * List.length (leaves_value v path).
Proof.
  induction v as [x|d IHd] using toml_nested_ind; intros key path.
  - split; [|reflexivity]. cbn [flatten_value option_pairs].
    now rewrite prefix_dashes.
  - simpl.
    induction IHd as [|[k v'] d' Hv _ IHd']; [split; reflexivity|].
    simpl in Hv.
    destruct (Hv (join_key key k) (path ++ [k])) as [Hp Hl].
    destruct IHd' as [Hp' Hl'].
    split.
    + now rewrite (@option_pairs_app _ _ Hp).
    + rewrite !length_app, Hl, Hl'. lia.
Qed.

(** X2. Whatever the document and the prefix, the result of
    [flatten_to_args] is a sequence of pairs, an option string that starts
    with ["--"] and then a value, two strings per leaf of the document;
    tables without leaves contribute nothing. *)
Theorem flatten_to_args_pairs_shape (d : list (string * toml leaf)) (prefix : string) :
  option_pairs (flatten_to_args str d prefix) = true /\
  List.length (flatten_to_args str d prefix) = 2 * List.length (leaves d).
Proof. exact (flatten_value_shape (TDict d) prefix []). Qed.

End FlattenMore.

(** ** More on [main] *)

Section MainMore.
Variable L : Lib.
Variable W : World L.

Ltac elsewhere H :=
  first
    [ apply in_ext_inv in H; destruct H as [[H _]|(? & H & _)]; discriminate H
    | exfalso; revert H; apply not_block_event;
      [ first [ apply manual_config_parsing_events
              | apply dataprocessor_setup_events
              | apply distributed_data_parallel_setup_events ]
      | reflexivity ]
    | match type of H with context [if ?b then _ else _] => destruct b end;
      simpl in H; repeat (destruct H as [H|H]; [discriminate H|]); contradiction H
    | simpl in H; repeat (destruct H as [H|H]; [discriminate H|]); contradiction H ].

Ltac walk H :=
  let t := fresh "t" in let x := fresh "x" in let Hm := fresh "Hm" in
  apply in_bind_inv in H; destruct H as [H | (t & x & Hm & H)];
  [ | try (apply ext_Ok_inv in Hm; destruct Hm as [Hm _]);
      repeat match type of H with
             | context [let (_, _) := ?y in _] => is_var y; destruct y
             end;
      cbv beta zeta in H ].





End MainMore.

(** ** How a run ends *)




(** X7. When [main] returns normally, everything before went well: the
    preparation returned, the checkpoint loaded, [evaluate_all] returned
    its metrics and they were printed, [is_initialized()] was asked, and
    the process group was destroyed exactly when it answered [True]. *)
Theorem normal_return (L : Lib) (W : World L) (prog : string) (cli : list string) :
  result (main W prog cli) = Ok tt ->
  exists t0 st metrics initialized,
    prepare W prog cli = (t0, Ok st) /\
    resume_state_from_dir W (p_trainer st) (Path (Argparse.checkpoint (p_args st)))
    = Ok tt /\
    evaluate_all W (p_trainer st) (evaluate_args (p_eval_losses st) (p_test_loaders st))
    = Ok metrics /\
    is_initialized W = Ok initialized /\
    (initialized = true -> destroy_process_group W = Ok tt) /\
    trace (main W prog cli) =
    t0 ++ (loaded_trace W (p_trainer st) (p_args st)
           ++ evaluation_trace W (p_trainer st) (p_eval_losses st)
                (p_test_loaders st) metrics)
       ++ Called CIsInitialized None
       :: (if initialized then [Called CDestroyProcessGroup None] else []).
Proof.
  intros H.
  destruct (prepare W prog cli) as [t0 [st|e0]] eqn:Hprep.
  2:{ rewrite (main_prepare_failed _ _ _ Hprep) in H. discriminate H. }
  rewrite (main_after_prepare _ _ _ Hprep) in *. unfold trace, result in *.
  cbn [fst snd] in *.
  pose proof (finish_cases W st) as Hfin. cbv zeta in Hfin.
  destruct (resume_state_from_dir W (p_trainer st) (Path (Argparse.checkpoint (p_args st))))
    as [[]|e] eqn:Hres.
  - destruct (evaluate_all W (p_trainer st) _) as [ms|e] eqn:Heval.
    + destruct (is_initialized W) as [[]|e] eqn:Hinit.
      * destruct (destroy_process_group W) as [[]|e] eqn:Hdes;
          rewrite Hfin in *; [|discriminate H].
        exists t0, st, ms, true. repeat split; auto.
      * rewrite Hfin in *. exists t0, st, ms, false. repeat split; auto.
        intros; discriminate.
      * rewrite Hfin in H. discriminate H.
    + rewrite Hfin in H. discriminate H.
  - rewrite Hfin in H. destruct (is_Exception e); discriminate H.
Qed.

Lemma normal_return_witness :
  let W := Demo.world Demo.worker in
  exists t0 st metrics initialized,
    prepare W Demo.script [] = (t0, Ok st) /\
    is_initialized W = Ok initialized /\
    trace (main W Demo.script []) =
    t0 ++ (loaded_trace W (p_trainer st) (p_args st)
           ++ evaluation_trace W (p_trainer st) (p_eval_losses st)
                (p_test_loaders st) metrics)
       ++ Called CIsInitialized None
       :: (if initialized then [Called CDestroyProcessGroup None] else []).
Proof.
  intros W.
  destruct (normal_return W Demo.script [] eq_refl)
    as (t0 & st & ms & b & Hprep & _ & _ & Hinit & _ & Htrace).
  exists t0, st, ms, b. repeat split; assumption.
Defined.

(** ** The test loaders that are evaluated *)

Lemma rewrap_test_loaders_keys (L : Lib) (W : World L) bs : forall i tests t tests',
  rewrap_test_loaders W i bs tests = (t, Ok tests') ->
  map fst tests' = map fst tests /\ List.length tests' = List.length tests.
Proof.
  induction bs as [|b bs IH]; intros i tests t tests' Hrun; simpl in Hrun.
  - destruct (nth_error tests i) as [[? ?]|]; inversion Hrun; auto.
  - destruct (nth_error tests i) as [[res l]|] eqn:Hi; [|inversion Hrun; auto].
    destruct (distributed_loader W (loader_dataset W l) b (Some false))
      as [t1 [new|e]]; [|discriminate].
    simpl in Hrun.
    destruct (rewrap_test_loaders W (S i) bs (dict_set tests res new))
      as [t2 [tests2|e]] eqn:Hrest; [|discriminate].
    inversion Hrun; subst. destruct (IH _ _ _ _ Hrest) as [Hk Hl].
    assert (Hin : In res (map fst tests)).
    { apply nth_error_In in Hi. now apply (in_map fst) in Hi. }
    pose proof (@dict_set_keys _ tests res new Hin) as Hkeys.
    split; [congruence|].
    rewrite Hl. rewrite <- (length_map fst), Hkeys. apply length_map.
Qed.

(** X8. The dictionary of test loaders that [evaluate_all] receives has
    the keys of the dictionary that [load_navier_stokes_pt] returned, in
    the same order; without distributed mode it is that dictionary. *)
Theorem evaluated_test_loaders (L : Lib) (W : World L) (prog : string)
        (cli : list string) (t0 : list (event L)) (st : Prepared L) :
  prepare W prog cli = (t0, Ok st) ->
  exists cfg0 device is_logger train tests dp,
    In (Called (CSetup cfg0) None) t0 /\
    setup W cfg0 = Ok (device, is_logger) /\
    (let config := set_verbose cfg0 (verbose cfg0 && is_logger) in
     load_navier_stokes_pt W (load_args config (Expanduser (Path (folder (data config)))))
     = Ok (train, tests, dp)) /\
    map fst (p_test_loaders st) = map fst tests /\
    (use_distributed (distributed cfg0) = false -> p_test_loaders st = tests).
Proof.
  intros Hprep.
  destruct (prepare_inv W _ _ Hprep)
    as (unknown & cfg0 & device & is_logger & train & tests & dp & train' & t_dist
        & h1 & l2 & _ & Hin & Hsetup & H).
  cbv zeta in H. destruct H as (Hload & Hdist & _).
  exists cfg0, device, is_logger, train, tests, dp.
  split; [exact Hin|]. split; [exact Hsetup|]. split; [exact Hload|].
  unfold distributed_data_parallel_setup in Hdist.
  change (distributed (set_verbose cfg0 (verbose cfg0 && is_logger)))
    with (distributed cfg0) in Hdist.
  destruct (use_distributed (distributed cfg0)).
  - split; [|discriminate].
    destruct (distributed_loader W _ _ None) as [t1 [new|e]]; [|discriminate].
    simpl in Hdist.
    destruct (rewrap_test_loaders W 0 _ tests) as [t2 [tests2|e]] eqn:Hrest;
      [|discriminate].
    simpl in Hdist. inversion Hdist; subst.
    exact (proj1 (rewrap_test_loaders_keys _ _ _ _ Hrest)).
  - inversion Hdist; subst. auto.
Qed.

Lemma evaluated_test_loaders_witness :
  let W := Demo.world Demo.worker in
  exists t0 st,
    prepare W Demo.script [] = (t0, Ok st) /\
    map fst (p_test_loaders st) = [64%Z; 128%Z].
Proof.
  intros W.
  destruct (prepare W Demo.script []) as [t0 [st|e]] eqn:Hprep;
    [|vm_compute in Hprep; discriminate].
  destruct (evaluated_test_loaders W Demo.script [] Hprep)
    as (cfg0 & device & is_logger & train & tests & dp & _ & _ & Hload & Hkeys & _).
  exists t0, st. split; [reflexivity|].
  rewrite Hkeys. cbv zeta in Hload. simpl in Hload. inversion Hload. reflexivity.
Defined.

Lemma distributed_loader_trace (L : Lib) (W : World L) db b sh t l :
  distributed_loader W db b sh = (t, Ok l) ->
  exists rank s,
    t = [Called CGetLocalRank None;
         Called (CDistributedSampler db rank) None;
         Called (CDataLoader {| dl_dataset := db; dl_batch_size := b;
                                dl_shuffle := sh; dl_sampler := s |}) None].
Proof.
  unfold distributed_loader.
  destruct (get_local_rank W) as [rank|e]; [|discriminate].
  destruct (DistributedSampler W db rank) as [s|e] eqn:Hs; simpl;
    rewrite Hs; [|discriminate].
  simpl. destruct (DataLoader W _) as [l'|e]; simpl; [|discriminate].
  intros H. inversion H. eauto.
Qed.

Lemma dict_set_length {V} (d : list (Z * V)) (k : Z) (v : V) :
  In k (map fst d) -> List.length (dict_set d k v) = List.length d.
Proof.
  intros H. rewrite <- (length_map fst), (@dict_set_keys _ d k v H). apply length_map.
Qed.

Lemma rewrap_test_loaders_count (L : Lib) (W : World L) bs :
  loaders_constructible W ->
  forall i tests,
    List.length (filter (@is_dataloader L) (fst (rewrap_test_loaders W i bs tests)))
    = Nat.min (List.length tests - i) (List.length bs).
Proof.
  intros HW. induction bs as [|b bs IH]; intros i tests; simpl.
  - destruct (nth_error tests i) as [[? ?]|]; simpl; lia.
  - destruct (nth_error tests i) as [[res l]|] eqn:Hi.
    + assert (Hlt : i < List.length tests) by (apply nth_error_Some; congruence).
      assert (Hin : In res (map fst tests)).
      { apply nth_error_In in Hi. now apply (in_map fst) in Hi. }
      destruct (@distributed_loader_total L W (loader_dataset W l) b (Some false) HW)
        as (t1 & new & Hnew).
      destruct (@distributed_loader_trace L W _ _ _ _ _ Hnew) as (rank & s & ->).
      rewrite (fst_bind_Ok _ Hnew). rewrite filter_app, length_app, IH.
      rewrite (@dict_set_length _ tests res new Hin). simpl. lia.
    + apply nth_error_None in Hi. simpl. lia.
Qed.

(** X9. When the constructors succeed, distributed mode builds one new
    [DataLoader] for the train loader and one for each test loader that has
    a batch size, as many as the shorter of the two sequences has entries:
    surplus batch sizes and surplus test loaders are both passed over.
    Without distributed mode it builds none. *)
Theorem distributed_loader_count (L : Lib) (W : World L) (config : Config)
        (train : Loader L) (tests : list (Z * Loader L)) :
  loaders_constructible W ->
  List.length (filter (@is_dataloader L)
                 (fst (distributed_data_parallel_setup W config train tests)))
  = if use_distributed (distributed config)
    then 1 + Nat.min (List.length tests) (List.length (test_batch_sizes (data config)))
    else 0.
Proof.
  intros HW. unfold distributed_data_parallel_setup.
  destruct (use_distributed (distributed config)); [|reflexivity].
  destruct (@distributed_loader_total L W (loader_dataset W train)
              (batch_size (data config)) None HW) as (t1 & new & Hnew).
  destruct (@distributed_loader_trace L W _ _ _ _ _ Hnew) as (rank & s & ->).
  rewrite (fst_bind_Ok _ Hnew).
  destruct (@rewrap_test_loaders_total L W (test_batch_sizes (data config)) 0 tests HW)
    as (t2 & tests' & Hrest).
  rewrite (fst_bind_Ok _ Hrest). cbn [fst ret].
  rewrite app_nil_r, filter_app, length_app.
  pose proof (@rewrap_test_loaders_count L W (test_batch_sizes (data config)) HW 0 tests) as Hc.
  rewrite Hrest in Hc. cbn [fst] in Hc. rewrite Hc. simpl. lia.
Qed.

Lemma distributed_loader_count_witness :
  let W := Demo.world Demo.worker in
  List.length (filter (@is_dataloader Demo.lib)
                 (fst (distributed_data_parallel_setup W (Demo.sc_config Demo.worker)
                         (Demo.LibraryLoader "train_db" : Loader Demo.lib)
                         Demo.two_loaders)))
  = 2.
Proof.
  intros W.
  exact (@distributed_loader_count Demo.lib W (Demo.sc_config Demo.worker)
           (Demo.LibraryLoader "train_db" : Loader Demo.lib) Demo.two_loaders
           (demo_loaders_constructible Demo.worker)).
Defined.

(** ** Witnesses for the facts about [main] *)



